(** * Serialport: the webview-side session handle of tauri-plugin-serialport

    A shallow embedding of [webview-src/index.ts].  The class [Serialport] is a
    record; its [async] methods are computations in a small monad that threads
    the receiver ([this]) and the outside world (the Tauri command channel and
    the window event feed), and that distinguishes a value returned, a rejected
    promise returned, and an exception thrown, so that [try]/[catch], [await]
    and [return Promise.reject(..)] read as they do in the source. *)

From Stdlib Require Import ZArith List String Bool Lia.
Import ListNotations.
Local Open Scope list_scope.
Local Open Scope string_scope.

(** ** JavaScript data *)

(** A JavaScript [number], restricted to what the binding distinguishes:
    integral values and [NaN].  (Fractions and infinities are truthy like any
    non-zero integer and are not needed to tell the branches apart.) *)
Inductive number : Type :=
| Num (z : Z)
| NaN.

(** [ToBoolean] on numbers and strings. *)
Definition truthy_number (n : number) : bool :=
  match n with
  | Num z => negb (z =? 0)%Z
  | NaN => false
  end.

Definition truthy_string (s : string) : bool :=
  match s with
  | EmptyString => false
  | String _ _ => true
  end.

(** An optional property is [None] when it is [undefined], which is falsy. *)
Definition truthy_opt {A : Type} (t : A -> bool) (o : option A) : bool :=
  match o with
  | Some a => t a
  | None => false
  end.

(** [a || d], for an optional left operand. *)
Definition or_else {A : Type} (t : A -> bool) (o : option A) (d : A) : A :=
  match o with
  | Some a => if t a then a else d
  | None => d
  end.

(** The spec's [a ?? d] (nullish coalescing), stated from its words so that it
    can be compared with what the code computes. *)
Definition spec_nullish {A : Type} (o : option A) (d : A) : A :=
  match o with
  | Some a => a
  | None => d
  end.

Inductive DataBits : Type := DB5 | DB6 | DB7 | DB8.
Inductive FlowControl : Type := Software | Hardware.
Inductive Parity : Type := Odd | Even.
Inductive StopBits : Type := SB1 | SB2.

(** [x || null] for a property of type [undefined | null | T], where every
    member of [T] is truthy (non-empty string literals). *)
Definition or_null {A : Type} (o : option (option A)) : option A :=
  match o with
  | Some (Some a) => Some a
  | Some None => None
  | None => None
  end.

(** [interface SerialportOptions].  [baudRate] is declared required, but the
    class itself tests for its absence in [open]; it is optional here so that
    a JavaScript caller who leaves it out can be described. *)
Record SerialportOptions : Type := {
  so_path : string;
  so_baudRate : option number;
  so_encoding : option string;
  so_dataBits : option DataBits;
  so_flowControl : option (option FlowControl);
  so_parity : option (option Parity);
  so_stopBits : option StopBits;
  so_timeout : option number;
  so_size : option number
}.

(** [interface Options], the shape of [this.options]. *)
Record Options : Type := {
  path : string;
  baudRate : option number;
  dataBits : DataBits;
  flowControl : option FlowControl;
  parity : option Parity;
  stopBits : StopBits;
  timeout : number
}.

(** [interface ReadOptions]. *)
Record ReadOptions : Type := {
  ro_timeout : option number;
  ro_size : option number
}.

(** [options?.timeout] and [options?.size], for an optional [options]. *)
Definition opt_timeout (opts : option ReadOptions) : option number :=
  match opts with
  | Some o => ro_timeout o
  | None => None
  end.

Definition opt_size (opts : option ReadOptions) : option number :=
  match opts with
  | Some o => ro_size o
  | None => None
  end.

(** [interface ReadDataResult]. *)
Record ReadDataResult : Type := {
  rd_size : Z;
  rd_data : list Z
}.

(** An [UnlistenFn] is identified by the registration it releases. *)
Definition UnlistenFn : Type := nat.

(** [class Serialport]. *)
Record Serialport : Type := {
  isOpen : bool;
  unListen : option UnlistenFn;
  encoding : string;
  options : Options;
  size : number
}.

Definition set_isOpen (b : bool) (s : Serialport) : Serialport :=
  {| isOpen := b; unListen := unListen s; encoding := encoding s;
     options := options s; size := size s |}.

Definition set_unListen (u : option UnlistenFn) (s : Serialport) : Serialport :=
  {| isOpen := isOpen s; unListen := u; encoding := encoding s;
     options := options s; size := size s |}.

Definition set_options (o : Options) (s : Serialport) : Serialport :=
  {| isOpen := isOpen s; unListen := unListen s; encoding := encoding s;
     options := o; size := size s |}.

Definition with_path (p : string) (o : Options) : Options :=
  {| path := p; baudRate := baudRate o; dataBits := dataBits o;
     flowControl := flowControl o; parity := parity o;
     stopBits := stopBits o; timeout := timeout o |}.

Definition with_baudRate (b : option number) (o : Options) : Options :=
  {| path := path o; baudRate := b; dataBits := dataBits o;
     flowControl := flowControl o; parity := parity o;
     stopBits := stopBits o; timeout := timeout o |}.

(** [this.options.path = p] and [this.options.baudRate = b]. *)
Definition set_path (p : string) (s : Serialport) : Serialport :=
  set_options (with_path p (options s)) s.

Definition set_baudRate (b : option number) (s : Serialport) : Serialport :=
  set_options (with_baudRate b (options s)) s.

(** ** The constructor *)

Definition constructor (o : SerialportOptions) : Serialport :=
  {| isOpen := false;
     unListen := None;
     encoding := or_else truthy_string (so_encoding o) "utf-8";
     options :=
       {| path := so_path o;
          baudRate := so_baudRate o;
          dataBits := match so_dataBits o with Some d => d | None => DB8 end;
          flowControl := or_null (so_flowControl o);
          parity := or_null (so_parity o);
          stopBits := match so_stopBits o with Some b => b | None => SB2 end;
          timeout := or_else truthy_number (so_timeout o) (Num 200) |};
     size := or_else truthy_number (so_size o) (Num 1024) |}.

(** ** Values that cross the boundary *)

(** What a promise may be rejected with, or a function may throw: a plain
    string, the plugin's [{code, message}] object, or an [Error] instance. *)
Inductive Error : Type :=
| ErrString (s : string)
| ErrObject (code : Z) (message : string)
| ErrException (name message : string).

(** ['...' + error]: string conversion of the caught value. *)
Definition error_to_string (e : Error) : string :=
  match e with
  | ErrString s => s
  | ErrObject _ _ => "[object Object]"
  | ErrException n m =>
      match n, m with
      | EmptyString, _ => m
      | _, EmptyString => n
      | _, _ => n ++ ": " ++ m
      end
  end.

(** What a command resolves with. *)
Inductive Value : Type :=
| VUndefined
| VNumber (n : number)
| VStrings (l : list string).

(** The commands of the plugin, [invoke('plugin:serialport|<name>', args)]. *)
Inductive Command : Type :=
| cmd_available_ports
| cmd_force_close (p : string)
| cmd_close_all
| cmd_cancel_read (p : string)
| cmd_close (p : string)
| cmd_open (p : string) (baud : option number) (db : DataBits)
    (fc : option FlowControl) (par : option Parity) (sb : StopBits)
    (tmo : number)
| cmd_read (p : string) (tmo : number) (sz : number)
| cmd_write (value : string) (p : string)
| cmd_write_binary (value : list Z) (p : string).

Definition command_name (c : Command) : string :=
  match c with
  | cmd_available_ports => "plugin:serialport|available_ports"
  | cmd_force_close _ => "plugin:serialport|force_close"
  | cmd_close_all => "plugin:serialport|close_all"
  | cmd_cancel_read _ => "plugin:serialport|cancel_read"
  | cmd_close _ => "plugin:serialport|close"
  | cmd_open _ _ _ _ _ _ _ => "plugin:serialport|open"
  | cmd_read _ _ _ => "plugin:serialport|read"
  | cmd_write _ _ => "plugin:serialport|write"
  | cmd_write_binary _ _ => "plugin:serialport|write_binary"
  end.

(** What the listener's callback is called with: decoded text, or the
    [Uint8Array] itself. *)
Inductive CallbackArg : Type :=
| ArgText (s : string)
| ArgBytes (b : list Z).

(** The caller's callback [fn]: it returns ([None]) or throws ([Some e]). *)
Definition Callback : Type := CallbackArg -> option Error.

(** A registration made by [listen]: the event name and what the arrow
    function closes over besides [this]. *)
Record Listener : Type := {
  l_event : string;
  l_isDecode : bool;
  l_fn : Callback
}.

(** Everything observable at the boundary, in the order it happened. *)
Inductive Event : Type :=
| EvInvoke (c : Command) (r : Value + Error)
| EvListen (event : string) (r : UnlistenFn + Error)
| EvUnlisten (h : UnlistenFn) (threw : option Error)
| EvCallback (arg : CallbackArg) (threw : option Error)
| EvConsoleError (e : Error).

(** The world outside the class: the history, the registrations currently
    active on the event feed, and the next registration identifier. *)
Record World : Type := {
  trace : list Event;
  listeners : list (UnlistenFn * Listener);
  next_id : nat
}.

(** The external collaborators, which may answer according to everything that
    happened before: the command channel, the event feed's [listen] and the
    released [UnlistenFn], and [TextDecoder] (whose constructor throws on an
    unknown label). *)
Record Env : Type := {
  remote : list Event -> Command -> Value + Error;
  feed_listen : list Event -> string -> option Error;
  feed_unlisten : list Event -> UnlistenFn -> option Error;
  text_decoder : string -> (list Z -> string) + Error
}.

Definition log (ev : Event) (w : World) : World :=
  {| trace := (trace w ++ [ev])%list; listeners := listeners w; next_id := next_id w |}.

Definition register (l : Listener) (w : World) : World :=
  {| trace := trace w;
     listeners := (listeners w ++ [(next_id w, l)])%list;
     next_id := S (next_id w) |}.

Definition release (h : UnlistenFn) (w : World) : World :=
  {| trace := trace w;
     listeners := filter (fun hl => negb (Nat.eqb (fst hl) h)) (listeners w);
     next_id := next_id w |}.

(** [new Uint8Array(data)]: each element is reduced modulo 256. *)
Definition Uint8Array (data : list Z) : list Z :=
  map (fun z => (z mod 256)%Z) data.

(** ** The monad of method bodies *)

Inductive Completion (A : Type) : Type :=
| Returns (a : A)
| Rejects (e : Error)
| Throws (e : Error).
Arguments Returns {A} a.
Arguments Rejects {A} e.
Arguments Throws {A} e.

Definition M (A : Type) : Type :=
  Serialport -> World -> Completion A * Serialport * World.

Definition ret {A : Type} (a : A) : M A :=
  fun s w => (Returns a, s, w).

Definition bind {A B : Type} (m : M A) (k : A -> M B) : M B :=
  fun s w =>
    match m s w with
    | (Returns a, s', w') => k a s' w'
    | (Rejects e, s', w') => (Rejects e, s', w')
    | (Throws e, s', w') => (Throws e, s', w')
    end.

Notation "x <- m ;; k" := (bind m (fun x => k))
  (at level 61, m at next level, right associativity).
Notation "m ;;; k" := (bind m (fun _ => k))
  (at level 61, right associativity).

(** [return Promise.reject(e)]. *)
Definition reject {A : Type} (e : Error) : M A :=
  fun s w => (Rejects e, s, w).

(** [throw e]. *)
Definition throw {A : Type} (e : Error) : M A :=
  fun s w => (Throws e, s, w).

Definition this : M Serialport :=
  fun s w => (Returns s, s, w).

Definition assign (f : Serialport -> Serialport) : M unit :=
  fun s w => (Returns tt, f s, w).

(** [try { body } catch (error) { handler }]: only an exception is caught; a
    rejected promise that is returned without being awaited passes through. *)
Definition try_catch {A : Type} (body : M A) (handler : Error -> M A) : M A :=
  fun s w =>
    match body s w with
    | (Throws e, s', w') => handler e s' w'
    | r => r
    end.

(** [await p]: a rejection of [p] is thrown at the point of the [await]. *)
Definition await {A : Type} (p : M A) : M A :=
  fun s w =>
    match p s w with
    | (Rejects e, s', w') => (Throws e, s', w')
    | r => r
    end.

(** An [async] function: an exception that escapes the body rejects the
    promise the function returns. *)
Definition async {A : Type} (body : M A) : M A :=
  fun s w =>
    match body s w with
    | (Throws e, s', w') => (Rejects e, s', w')
    | r => r
    end.

(** ** The class, over an arbitrary environment *)

Section Methods.

Variable env : Env.

(** [invoke<T>(name, args)]: one round trip on the command channel. *)
Definition invoke (c : Command) : M Value :=
  fun s w =>
    match remote env (trace w) c with
    | inl v => (Returns v, s, log (EvInvoke c (inl v)) w)
    | inr e => (Rejects e, s, log (EvInvoke c (inr e)) w)
    end.

(** [appWindow.listen<ReadDataResult>(event, handler)]: on success the handler
    is registered on the feed and its [UnlistenFn] is the result. *)
Definition appWindow_listen (l : Listener) : M UnlistenFn :=
  fun s w =>
    match feed_listen env (trace w) (l_event l) with
    | None =>
        (Returns (next_id w), s,
         register l (log (EvListen (l_event l) (inl (next_id w))) w))
    | Some e => (Rejects e, s, log (EvListen (l_event l) (inr e)) w)
    end.

(** Calling an [UnlistenFn]: the registration is released, unless the call
    throws. *)
Definition call_unListen (h : UnlistenFn) : M unit :=
  fun s w =>
    match feed_unlisten env (trace w) h with
    | None => (Returns tt, s, release h (log (EvUnlisten h None) w))
    | Some e => (Throws e, s, log (EvUnlisten h (Some e)) w)
    end.

(** [fn(arg)]. *)
Definition call_fn (fn : Callback) (arg : CallbackArg) : M unit :=
  fun s w =>
    match fn arg with
    | None => (Returns tt, s, log (EvCallback arg None) w)
    | Some e => (Throws e, s, log (EvCallback arg (Some e)) w)
    end.

(** [console.error(error)]. *)
Definition console_error (e : Error) : M unit :=
  fun s w => (Returns tt, s, log (EvConsoleError e) w).

(** [new TextDecoder(label)]. *)
Definition new_TextDecoder (label : string) : M (list Z -> string) :=
  match text_decoder env label with
  | inl d => ret d
  | inr e => throw e
  end.

(** *** Static methods *)

Definition available_ports : M Value :=
  async (try_catch
    (await (invoke cmd_available_ports))
    (fun error => reject error)).

Definition forceClose (p : string) : M Value :=
  async (await (invoke (cmd_force_close p))).

Definition closeAll : M Value :=
  async (await (invoke cmd_close_all)).

(** *** Instance methods *)

Definition cancelListen : M unit :=
  async (try_catch
    (s <- this ;;
     match unListen s with
     | Some h =>
         call_unListen h ;;;
         assign (set_unListen None) ;;;
         ret tt
     | None => ret tt
     end)
    (fun error =>
       reject (ErrString ("Error cancelling listen: " ++ error_to_string error)))).

Definition cancelRead : M Value :=
  async (try_catch
    (s <- this ;;
     await (invoke (cmd_cancel_read (path (options s)))))
    (fun error => reject error)).

Definition close : M Value :=
  async (try_catch
    (s <- this ;;
     if negb (isOpen s) then ret VUndefined
     else
       await cancelRead ;;;
       s1 <- this ;;
       res <- await (invoke (cmd_close (path (options s1)))) ;;
       await cancelListen ;;;
       assign (set_isOpen false) ;;;
       ret res)
    (fun error => reject error)).

(** The arrow function that [listen] registers.  It reads [this.encoding]
    when an event arrives, not when it is registered. *)
Definition handler (l : Listener) (payload : ReadDataResult) : M unit :=
  try_catch
    (if l_isDecode l then
       s <- this ;;
       decoder <- new_TextDecoder (encoding s) ;;
       call_fn (l_fn l) (ArgText (decoder (Uint8Array (rd_data payload))))
     else
       call_fn (l_fn l) (ArgBytes (Uint8Array (rd_data payload))))
    (fun error => console_error error).

Definition listen (fn : Callback) (isDecode : bool) : M unit :=
  async (try_catch
    (await cancelListen ;;;
     s <- this ;;
     let readEvent := "plugin-serialport-read-" ++ path (options s) in
     h <- await (appWindow_listen
                   {| l_event := readEvent; l_isDecode := isDecode; l_fn := fn |}) ;;
     assign (set_unListen (Some h)) ;;;
     ret tt)
    (fun error =>
       reject (ErrString ("Error to listen: " ++ error_to_string error)))).

Definition open : M Value :=
  async (try_catch
    (s <- this ;;
     if negb (truthy_string (path (options s))) then
       reject (ErrString "Path cannot be empty!")
     else if negb (truthy_opt truthy_number (baudRate (options s))) then
       reject (ErrString "Baudrate cannot be empty!")
     else if isOpen s then ret VUndefined
     else
       res <- await (invoke (cmd_open (path (options s)) (baudRate (options s))
                               (dataBits (options s)) (flowControl (options s))
                               (parity (options s)) (stopBits (options s))
                               (timeout (options s)))) ;;
       assign (set_isOpen true) ;;;
       ret res)
    (fun error => reject error)).

(** The arguments [read] sends: [options?.timeout || this.options.timeout] and
    [options?.size || this.size]. *)
Definition read_command (s : Serialport) (opts : option ReadOptions) : Command :=
  cmd_read (path (options s))
    (or_else truthy_number (opt_timeout opts) (timeout (options s)))
    (or_else truthy_number (opt_size opts) (size s)).

Definition read (opts : option ReadOptions) : M Value :=
  async (try_catch
    (s <- this ;;
     await (invoke (read_command s opts)))
    (fun error => reject error)).

(** [change], [setBaudRate] and [setPath] share one shape: close if open,
    mutate, reopen if it was open. *)
Definition change (new_path : option string) (new_baudRate : option number)
  : M unit :=
  async (try_catch
    (s <- this ;;
     isOpened <- (if isOpen s then await close ;;; ret true else ret false) ;;
     match new_path with
     | Some p => if truthy_string p then assign (set_path p) else ret tt
     | None => ret tt
     end ;;;
     match new_baudRate with
     | Some b => if truthy_number b then assign (set_baudRate (Some b)) else ret tt
     | None => ret tt
     end ;;;
     (if isOpened : bool then await open ;;; ret tt else ret tt) ;;;
     ret tt)
    (fun error => reject error)).

Definition setBaudRate (value : number) : M unit :=
  async (try_catch
    (s <- this ;;
     isOpened <- (if isOpen s then await close ;;; ret true else ret false) ;;
     assign (set_baudRate (Some value)) ;;;
     (if isOpened : bool then await open ;;; ret tt else ret tt) ;;;
     ret tt)
    (fun error => reject error)).

Definition setPath (value : string) : M unit :=
  async (try_catch
    (s <- this ;;
     isOpened <- (if isOpen s then await close ;;; ret true else ret false) ;;
     assign (set_path value) ;;;
     (if isOpened : bool then await open ;;; ret tt else ret tt) ;;;
     ret tt)
    (fun error => reject error)).

Definition write (value : string) : M Value :=
  async (try_catch
    (s <- this ;;
     if negb (isOpen s) then
       reject (ErrString ("Serial port " ++ path (options s) ++ " is not opened!"))
     else
       await (invoke (cmd_write value (path (options s)))))
    (fun error => reject error)).

(** What [writeBinary] may be called with: one of the two declared types, or
    (from untyped JavaScript) something else. *)
Inductive BinaryValue : Type :=
| OfUint8Array (bytes : list Z)
| OfArray (numbers : list Z)
| NotBinary.

Definition writeBinary (value : BinaryValue) : M Value :=
  async (try_catch
    (s <- this ;;
     if negb (isOpen s) then
       reject (ErrString ("Serial port " ++ path (options s) ++ " is not open!"))
     else
       match value with
       | OfUint8Array l | OfArray l =>
           await (invoke (cmd_write_binary l (path (options s))))
       | NotBinary =>
           reject (ErrString
             "Argument type error! Expected type: string, Uint8Array, number[]")
       end)
    (fun error => reject error)).

End Methods.

(** What the handler computes for the callback from a payload: the decoded
    text or the bytes, or the exception [new TextDecoder] throws. *)
Definition handler_arg (env : Env) (s : Serialport) (l : Listener)
    (payload : ReadDataResult) : CallbackArg + Error :=
  if l_isDecode l then
    match text_decoder env (encoding s) with
    | inl decoder => inl (ArgText (decoder (Uint8Array (rd_data payload))))
    | inr e => inr e
    end
  else inl (ArgBytes (Uint8Array (rd_data payload))).

(** ** The event feed delivering an event *)

(** The feed calls every handler registered under the event's name, in
    registration order. *)
Fixpoint dispatch (env : Env) (ls : list (UnlistenFn * Listener))
    (event : string) (payload : ReadDataResult) : M unit :=
  match ls with
  | [] => ret tt
  | (_, l) :: rest =>
      (if String.eqb (l_event l) event then handler env l payload else ret tt) ;;;
      dispatch env rest event payload
  end.

Definition emit (env : Env) (event : string) (payload : ReadDataResult) : M unit :=
  fun s w => dispatch env (listeners w) event payload s w.

(** ** A client using one session, one call after the other *)

Inductive Call : Type :=
| CallCancelListen
| CallCancelRead
| CallChange (new_path : option string) (new_baudRate : option number)
| CallClose
| CallListen (fn : Callback) (isDecode : bool)
| CallOpen
| CallRead (opts : option ReadOptions)
| CallSetBaudRate (value : number)
| CallSetPath (value : string)
| CallWrite (value : string)
| CallWriteBinary (value : BinaryValue)
| FeedEmit (event : string) (payload : ReadDataResult).

Definition after {A : Type} (r : Completion A * Serialport * World)
  : Serialport * World :=
  (snd (fst r), snd r).

Definition perform (env : Env) (c : Call) (s : Serialport) (w : World)
  : Serialport * World :=
  match c with
  | CallCancelListen => after (cancelListen env s w)
  | CallCancelRead => after (cancelRead env s w)
  | CallChange p b => after (change env p b s w)
  | CallClose => after (close env s w)
  | CallListen fn d => after (listen env fn d s w)
  | CallOpen => after (open env s w)
  | CallRead opts => after (read env opts s w)
  | CallSetBaudRate v => after (setBaudRate env v s w)
  | CallSetPath v => after (setPath env v s w)
  | CallWrite v => after (write env v s w)
  | CallWriteBinary v => after (writeBinary env v s w)
  | FeedEmit ev p => after (emit env ev p s w)
  end.

Definition empty_world : World :=
  {| trace := []; listeners := []; next_id := 0 |}.

(** The sessions a client can obtain: constructed, then driven through the
    methods, each call settled before the next is made. *)
Inductive Reachable (env : Env) : Serialport -> World -> Prop :=
| Reachable_new (o : SerialportOptions) :
    Reachable env (constructor o) empty_world
| Reachable_call (c : Call) (s : Serialport) (w : World) :
    Reachable env s w ->
    Reachable env (fst (perform env c s w)) (snd (perform env c s w)).

(** [open]'s local validation, as a predicate on the session. *)
Definition configured (s : Serialport) : bool :=
  truthy_string (path (options s)) &&
  truthy_opt truthy_number (baudRate (options s)).

(** An Open session has a path and a baud rate. *)
Definition open_is_configured (s : Serialport) : Prop :=
  isOpen s = true -> configured s = true.

(** Every registration active on the feed is the one the session holds, and
    there is at most one. *)
Definition one_subscription (s : Serialport) (w : World) : Prop :=
  (List.length (listeners w) <= 1)%nat /\
  forall h l, In (h, l) (listeners w) -> unListen s = Some h.

(** The assignments [change] makes between closing and reopening: a field is
    assigned only when the new value is truthy. *)
Definition changed (new_path : option string) (new_baudRate : option number)
    (s : Serialport) : Serialport :=
  let s1 :=
    match new_path with
    | Some p => if truthy_string p then set_path p s else s
    | None => s
    end in
  match new_baudRate with
  | Some b => if truthy_number b then set_baudRate (Some b) s1 else s1
  | None => s1
  end.

(** What [change], [setBaudRate] and [setPath] amount to, [f] being the
    assignment made in the middle: on an open session, [close], then [f], then
    [open], stopping at the first failure; on a closed one, [f] alone. *)
Definition reconfigured (env : Env) (f : Serialport -> Serialport) : M unit :=
  fun s w =>
    if isOpen s then
      match close env s w with
      | (Returns _, s1, w1) =>
          match open env (f s1) w1 with
          | (Returns _, s2, w2) => (Returns tt, s2, w2)
          | (Rejects e, s2, w2) | (Throws e, s2, w2) => (Rejects e, s2, w2)
          end
      | (Rejects e, s1, w1) | (Throws e, s1, w1) => (Rejects e, s1, w1)
      end
    else (Returns tt, f s, w).

(** The commands sent over the command channel, in order. *)
Fixpoint commands_of (t : list Event) : list Command :=
  match t with
  | [] => []
  | EvInvoke c _ :: rest => c :: commands_of rest
  | _ :: rest => commands_of rest
  end.

(** The command the spec has [read] send: [opts.timeout ?? session.timeoutMs]
    and [opts.size ?? session.chunkSize]. *)
Definition spec_read_command (s : Serialport) (opts : option ReadOptions)
  : Command :=
  cmd_read (path (options s))
    (spec_nullish (opt_timeout opts) (timeout (options s)))
    (spec_nullish (opt_size opts) (size s)).

(** ** Sample environments and sessions *)

Definition ascii_decode (bytes : list Z) : string :=
  string_of_list_ascii (map (fun z => Ascii.ascii_of_nat (Z.to_nat z)) bytes).

Definition decoders (label : string) : (list Z -> string) + Error :=
  if String.eqb label "utf-8" then inl ascii_decode
  else inr (ErrException "RangeError" "The encoding label provided is invalid.").

(** A driver that accepts everything. *)
Definition driver_ok : Env :=
  {| remote := fun _ c =>
       match c with
       | cmd_available_ports => inl (VStrings ["COM3"])
       | cmd_write v _ => inl (VNumber (Num (Z.of_nat (String.length v))))
       | cmd_write_binary l _ => inl (VNumber (Num (Z.of_nat (List.length l))))
       | _ => inl VUndefined
       end;
     feed_listen := fun _ _ => None;
     feed_unlisten := fun _ _ => None;
     text_decoder := decoders |}.

(** A driver on which one command fails with the plugin's error object. *)
Definition driver_failing (bad : string) : Env :=
  {| remote := fun _ c =>
       if String.eqb (command_name c) bad then inr (ErrObject 1 "Device busy")
       else inl VUndefined;
     feed_listen := fun _ _ => None;
     feed_unlisten := fun _ _ => None;
     text_decoder := decoders |}.

Definition com3_options : SerialportOptions :=
  {| so_path := "COM3"; so_baudRate := Some (Num 9600);
     so_encoding := None; so_dataBits := None; so_flowControl := None;
     so_parity := None; so_stopBits := None; so_timeout := None;
     so_size := None |}.

Definition com3 : Serialport := constructor com3_options.

Definition com3_open : Serialport := set_isOpen true com3.

(** A callback that always throws. *)
Definition throwing_fn : Callback :=
  fun _ => Some (ErrException "Error" "boom").

Definition quiet_fn : Callback := fun _ => None.

Definition hello : ReadDataResult :=
  {| rd_size := 5; rd_data := [104; 101; 108; 108; 111]%Z |}.

(** An open session that holds registration 0, and the world in which that
    registration is active. *)
Definition com3_listening : Serialport := set_unListen (Some 0%nat) com3_open.

Definition world_listening (fn : Callback) : World :=
  {| trace := [];
     listeners := [(0%nat, {| l_event := "plugin-serialport-read-COM3";
                             l_isDecode := true; l_fn := fn |})];
     next_id := 1 |}.

(** The part of a session for which the class has no setter. *)
Definition fixed_configuration (s : Serialport)
  : string * number * DataBits * option FlowControl * option Parity *
    StopBits * number :=
  (encoding s, size s, dataBits (options s), flowControl (options s),
   parity (options s), stopBits (options s), timeout (options s)).

(** The history holds an [open] command that the driver accepted. *)
Definition opened_by_driver (t : list Event) : Prop :=
  exists c v,
    In (EvInvoke c (inl v)) t /\ command_name c = "plugin:serialport|open".

(** A session marked open has an accepted [open] command in its history. *)
Definition acknowledged (s : Serialport) (w : World) : Prop :=
  isOpen s = true -> opened_by_driver (trace w).

(** A window whose event feed refuses every registration. *)
Definition feed_down : Env :=
  {| remote := fun _ _ => inl VUndefined;
     feed_listen := fun _ _ => Some (ErrString "window is gone");
     feed_unlisten := fun _ _ => None;
     text_decoder := decoders |}.

(** A window on which every [UnlistenFn] throws. *)
Definition unlisten_broken : Env :=
  {| remote := fun _ _ => inl VUndefined;
     feed_listen := fun _ _ => None;
     feed_unlisten := fun _ _ => Some (ErrException "TypeError" "not a function");
     text_decoder := decoders |}.

(** A session constructed with nothing but a path and a baud rate. *)
Definition minimal_options (p : string) (b : number) : SerialportOptions :=
  {| so_path := p; so_baudRate := Some b;
     so_encoding := None; so_dataBits := None; so_flowControl := None;
     so_parity := None; so_stopBits := None; so_timeout := None;
     so_size := None |}.

(** ** Proof automation *)

(** Unfolds the monad's combinators and the boundary primitives. *)
Ltac unfold_monad :=
  unfold async, try_catch, await, bind, ret, reject, throw, this, assign,
    invoke, appWindow_listen, call_unListen, call_fn, console_error,
    new_TextDecoder in *.

(** The world after is the world before with more history. *)
Ltac extends_trace :=
  eexists; cbn; rewrite <- ?app_assoc; reflexivity.

(** ** Concrete runs *)

Example construct_com3 :
  com3 =
  {| isOpen := false; unListen := None; encoding := "utf-8";
     options := {| path := "COM3"; baudRate := Some (Num 9600); dataBits := DB8;
                   flowControl := None; parity := None; stopBits := SB2;
                   timeout := Num 200 |};
     size := Num 1024 |}.
Proof. reflexivity. Qed.

Example scenario_open_write_close :
  let '(r1, s1, w1) := open driver_ok com3 empty_world in
  let '(r2, s2, w2) := write driver_ok "hi" s1 w1 in
  let '(r3, s3, w3) := close driver_ok s2 w2 in
  isOpen s1 = true /\ r2 = Returns (VNumber (Num 2)) /\ isOpen s3 = false /\
  commands_of (trace w3) =
    [cmd_open "COM3" (Some (Num 9600)) DB8 None None SB2 (Num 200);
     cmd_write "hi" "COM3"; cmd_cancel_read "COM3"; cmd_close "COM3"].
Proof. vm_compute. repeat split. Qed.

Example scenario_listen_hello :
  let '(_, s1, w1) := listen driver_ok quiet_fn true com3 empty_world in
  let '(_, _, w2) := emit driver_ok "plugin-serialport-read-COM3" hello s1 w1 in
  trace w2 =
    [EvListen "plugin-serialport-read-COM3" (inl 0%nat);
     EvCallback (ArgText "hello") None].
Proof. vm_compute. reflexivity. Qed.

(** ** How each method runs *)

Section Runs.

Variable env : Env.

Lemma cancelRead_run (s : Serialport) (w : World) :
  cancelRead env s w =
  let c := cmd_cancel_read (path (options s)) in
  match remote env (trace w) c with
  | inl v => (Returns v, s, log (EvInvoke c (inl v)) w)
  | inr e => (Rejects e, s, log (EvInvoke c (inr e)) w)
  end.
Proof.
  unfold cancelRead; unfold_monad; cbn.
  destruct (remote env (trace w) _); reflexivity.
Qed.

Lemma cancelListen_run (s : Serialport) (w : World) :
  cancelListen env s w =
  match unListen s with
  | None => (Returns tt, s, w)
  | Some h =>
      match feed_unlisten env (trace w) h with
      | None =>
          (Returns tt, set_unListen None s, release h (log (EvUnlisten h None) w))
      | Some e =>
          (Rejects (ErrString ("Error cancelling listen: " ++ error_to_string e)),
           s, log (EvUnlisten h (Some e)) w)
      end
  end.
Proof.
  unfold cancelListen; unfold_monad; cbn.
  destruct (unListen s) as [h|]; [|reflexivity].
  unfold_monad. destruct (feed_unlisten env (trace w) h); reflexivity.
Qed.

Lemma close_run (s : Serialport) (w : World) :
  close env s w =
  if isOpen s then
    let p := path (options s) in
    match remote env (trace w) (cmd_cancel_read p) with
    | inr e => (Rejects e, s, log (EvInvoke (cmd_cancel_read p) (inr e)) w)
    | inl v =>
        let w1 := log (EvInvoke (cmd_cancel_read p) (inl v)) w in
        match remote env (trace w1) (cmd_close p) with
        | inr e => (Rejects e, s, log (EvInvoke (cmd_close p) (inr e)) w1)
        | inl res =>
            let w2 := log (EvInvoke (cmd_close p) (inl res)) w1 in
            match cancelListen env s w2 with
            | (Returns _, s3, w3) => (Returns res, set_isOpen false s3, w3)
            | (Rejects e, s3, w3) => (Rejects e, s3, w3)
            | (Throws e, s3, w3) => (Rejects e, s3, w3)
            end
        end
    end
  else (Returns VUndefined, s, w).
Proof.
  unfold close. unfold async at 1, try_catch at 1, bind at 1, this at 1.
  destruct (isOpen s); cbn; [|reflexivity].
  unfold bind at 1, await at 1. rewrite cancelRead_run. cbn.
  destruct (remote env (trace w) _) as [v|e]; [|reflexivity].
  unfold bind at 1, await at 1, invoke at 1. cbn.
  destruct (remote env _ (cmd_close _)) as [res|e]; [|reflexivity].
  unfold bind at 1, await at 1.
  destruct (cancelListen env s _) as [[[u|e|e] s3] w3]; reflexivity.
Qed.

Lemma open_run (s : Serialport) (w : World) :
  open env s w =
  if negb (truthy_string (path (options s))) then
    (Rejects (ErrString "Path cannot be empty!"), s, w)
  else if negb (truthy_opt truthy_number (baudRate (options s))) then
    (Rejects (ErrString "Baudrate cannot be empty!"), s, w)
  else if isOpen s then (Returns VUndefined, s, w)
  else
    let c := cmd_open (path (options s)) (baudRate (options s))
               (dataBits (options s)) (flowControl (options s))
               (parity (options s)) (stopBits (options s))
               (timeout (options s)) in
    match remote env (trace w) c with
    | inl res => (Returns res, set_isOpen true s, log (EvInvoke c (inl res)) w)
    | inr e => (Rejects e, s, log (EvInvoke c (inr e)) w)
    end.
Proof.
  unfold open; unfold_monad; cbn.
  destruct (negb (truthy_string _)); [reflexivity|].
  destruct (negb (truthy_opt _ _)); [reflexivity|].
  destruct (isOpen s); [reflexivity|]. cbn.
  destruct (remote env (trace w) _); reflexivity.
Qed.

Lemma listen_run (fn : Callback) (isDecode : bool) (s : Serialport) (w : World) :
  listen env fn isDecode s w =
  match cancelListen env s w with
  | (Returns _, s1, w1) =>
      let l := {| l_event := "plugin-serialport-read-" ++ path (options s1);
                  l_isDecode := isDecode; l_fn := fn |} in
      match feed_listen env (trace w1) (l_event l) with
      | None =>
          (Returns tt, set_unListen (Some (next_id w1)) s1,
           register l (log (EvListen (l_event l) (inl (next_id w1))) w1))
      | Some e =>
          (Rejects (ErrString ("Error to listen: " ++ error_to_string e)),
           s1, log (EvListen (l_event l) (inr e)) w1)
      end
  | (Rejects e, s1, w1) | (Throws e, s1, w1) =>
      (Rejects (ErrString ("Error to listen: " ++ error_to_string e)), s1, w1)
  end.
Proof.
  unfold listen. unfold async at 1, try_catch at 1, bind at 1, await at 1.
  destruct (cancelListen env s w) as [[[u|e|e] s1] w1]; try reflexivity.
  unfold_monad; cbn.
  destruct (feed_listen env (trace w1) _); reflexivity.
Qed.

End Runs.

(** ** Reading *)

Lemma commands_of_app (t1 t2 : list Event) :
  commands_of (t1 ++ t2)%list = (commands_of t1 ++ commands_of t2)%list.
Proof.
  induction t1 as [|ev t1 IH]; cbn; [reflexivity|].
  destruct ev; cbn; rewrite IH; reflexivity.
Qed.

Lemma read_run (env : Env) (opts : option ReadOptions) (s : Serialport)
    (w : World) :
  read env opts s w =
  let c := read_command s opts in
  match remote env (trace w) c with
  | inl v => (Returns v, s, log (EvInvoke c (inl v)) w)
  | inr e => (Rejects e, s, log (EvInvoke c (inr e)) w)
  end.
Proof.
  unfold read; unfold_monad; cbn.
  destruct (remote env (trace w) _); reflexivity.
Qed.

(** C1, as the spec states it, fails: with [read({timeout: 0, size: 0})] on a
    session constructed with the defaults, the command sent carries the
    session's 200 and 1024, while [??] would have sent 0 and 0. *)
Lemma read_zero_is_not_nullish :
  let opts := Some {| ro_timeout := Some (Num 0); ro_size := Some (Num 0) |} in
  let w' := snd (read driver_ok opts com3 empty_world) in
  commands_of (trace w') = [cmd_read "COM3" (Num 200) (Num 1024)] /\
  spec_read_command com3 opts = cmd_read "COM3" (Num 0) (Num 0) /\
  commands_of (trace w') <> [spec_read_command com3 opts].
Proof.
  cbv zeta. split; [reflexivity|]. split; [reflexivity|].
  vm_compute. discriminate.
Qed.

(** C1 (amended): [read] sends exactly one command, [read], for the session's
    path; its timeout is [opts.timeout] when that is given and truthy (neither
    0 nor NaN) and the session's default timeout otherwise, and its size is
    [opts.size] when given and truthy and the session's default size otherwise.
    The session is left as it was, and the command's outcome is the call's. *)
Theorem read_effective_arguments (env : Env) (opts : option ReadOptions)
    (s : Serialport) (w : World) :
  exists tmo sz : number,
    let c := cmd_read (path (options s)) tmo sz in
    read env opts s w =
      match remote env (trace w) c with
      | inl v => (Returns v, s, log (EvInvoke c (inl v)) w)
      | inr e => (Rejects e, s, log (EvInvoke c (inr e)) w)
      end /\
    commands_of (trace (snd (read env opts s w))) =
      (commands_of (trace w) ++ [c])%list /\
    (forall t, opt_timeout opts = Some t -> truthy_number t = true -> tmo = t) /\
    (truthy_opt truthy_number (opt_timeout opts) = false ->
     tmo = timeout (options s)) /\
    (forall n, opt_size opts = Some n -> truthy_number n = true -> sz = n) /\
    (truthy_opt truthy_number (opt_size opts) = false -> sz = size s).
Proof.
  exists (or_else truthy_number (opt_timeout opts) (timeout (options s))).
  exists (or_else truthy_number (opt_size opts) (size s)).
  cbv zeta. rewrite read_run. cbv zeta. fold (read_command s opts).
  split; [reflexivity|]. split.
  - destruct (remote env (trace w) _); cbn;
      rewrite commands_of_app; reflexivity.
  - unfold or_else, truthy_opt.
    repeat split.
    + intros t Ht Htr. rewrite Ht, Htr. reflexivity.
    + destruct (opt_timeout opts) as [t|]; [|reflexivity].
      intros Htr. rewrite Htr. reflexivity.
    + intros n Hn Htr. rewrite Hn, Htr. reflexivity.
    + destruct (opt_size opts) as [n|]; [|reflexivity].
      intros Htr. rewrite Htr. reflexivity.
Qed.

(** ** Writing *)

(** C2: on a session that is not open, [write] and [writeBinary] are rejected
    with a string made locally; the session and the world (hence the trace of
    remote calls) are exactly as before. *)
Theorem write_closed_rejects (env : Env) (s : Serialport) (w : World)
    (text : string) (bytes : BinaryValue) :
  isOpen s = false ->
  write env text s w =
    (Rejects (ErrString ("Serial port " ++ path (options s) ++ " is not opened!")),
     s, w) /\
  writeBinary env bytes s w =
    (Rejects (ErrString ("Serial port " ++ path (options s) ++ " is not open!")),
     s, w).
Proof.
  intros Hclosed.
  unfold write, writeBinary; unfold_monad; cbn.
  rewrite Hclosed. cbn. split; reflexivity.
Qed.

Lemma write_closed_rejects_witness :
  write driver_ok "hi" com3 empty_world =
    (Rejects (ErrString "Serial port COM3 is not opened!"), com3, empty_world) /\
  writeBinary driver_ok (OfArray [104; 105]%Z) com3 empty_world =
    (Rejects (ErrString "Serial port COM3 is not open!"), com3, empty_world).
Proof.
  apply (write_closed_rejects driver_ok com3 empty_world "hi"
           (OfArray [104; 105]%Z)).
  reflexivity.
Defined.

(** ** Construction *)

(** C10: the constructor takes a falsy [timeout], [size] or [encoding] (absent,
    0, NaN, the empty string) for an absent one and fills in 200, 1024 and
    "utf-8"; a truthy value is kept.  The constructor is a total function of its
    argument alone: the new session is closed, holds no subscription, and no
    world is involved. *)
Theorem constructor_falsy_defaults (o : SerialportOptions) :
  let s := constructor o in
  (truthy_opt truthy_number (so_timeout o) = false ->
   timeout (options s) = Num 200) /\
  (truthy_opt truthy_number (so_size o) = false -> size s = Num 1024) /\
  (truthy_opt truthy_string (so_encoding o) = false -> encoding s = "utf-8") /\
  (forall t, so_timeout o = Some t -> truthy_number t = true ->
             timeout (options s) = t) /\
  (forall n, so_size o = Some n -> truthy_number n = true -> size s = n) /\
  (forall e, so_encoding o = Some e -> truthy_string e = true ->
             encoding s = e) /\
  isOpen s = false /\ unListen s = None.
Proof.
  cbv zeta. unfold constructor, or_else, truthy_opt; cbn.
  repeat split.
  - destruct (so_timeout o); [|reflexivity]. intros H; rewrite H; reflexivity.
  - destruct (so_size o); [|reflexivity]. intros H; rewrite H; reflexivity.
  - destruct (so_encoding o); [|reflexivity]. intros H; rewrite H; reflexivity.
  - intros t Ht Htr. rewrite Ht, Htr. reflexivity.
  - intros n Hn Htr. rewrite Hn, Htr. reflexivity.
  - intros e He Htr. rewrite He, Htr. reflexivity.
Qed.

Example constructor_zero_timeout :
  let s := constructor
    {| so_path := "COM3"; so_baudRate := Some (Num 9600);
       so_encoding := Some ""; so_dataBits := None; so_flowControl := None;
       so_parity := None; so_stopBits := None; so_timeout := Some (Num 0);
       so_size := Some (Num 0) |} in
  timeout (options s) = Num 200 /\ size s = Num 1024 /\ encoding s = "utf-8".
Proof. cbn. repeat split. Qed.

(** ** Closing *)

(** C4: [close] on a session that is not open resolves (with [undefined]) and
    changes neither the session nor the world: no remote call is made. *)
Theorem close_closed_is_noop (env : Env) (s : Serialport) (w : World) :
  isOpen s = false ->
  close env s w = (Returns VUndefined, s, w).
Proof.
  intros Hclosed. rewrite close_run, Hclosed. reflexivity.
Qed.

Lemma close_closed_is_noop_witness :
  close driver_ok com3 empty_world = (Returns VUndefined, com3, empty_world).
Proof.
  apply (close_closed_is_noop driver_ok com3 empty_world). reflexivity.
Defined.

(** C3: on an open session whose [cancel_read] and [close] commands succeed,
    [close] asks for [cancel_read] first, for [close] next (the driver answers
    it knowing of the [cancel_read]), then calls the held [UnlistenFn], if any,
    and only then sets [isOpen] to false: when that last call throws, the
    session is still open. *)
Theorem close_order (env : Env) (s : Serialport) (w : World)
    (v res : Value) :
  let p := path (options s) in
  let w1 := log (EvInvoke (cmd_cancel_read p) (inl v)) w in
  let w2 := log (EvInvoke (cmd_close p) (inl res)) w1 in
  isOpen s = true ->
  remote env (trace w) (cmd_cancel_read p) = inl v ->
  remote env (trace w1) (cmd_close p) = inl res ->
  trace w2 =
    (trace w ++ [EvInvoke (cmd_cancel_read p) (inl v);
                 EvInvoke (cmd_close p) (inl res)])%list /\
  match unListen s with
  | None => close env s w = (Returns res, set_isOpen false s, w2)
  | Some h =>
      match feed_unlisten env (trace w2) h with
      | None =>
          close env s w =
            (Returns res, set_isOpen false (set_unListen None s),
             release h (log (EvUnlisten h None) w2)) /\
          trace (release h (log (EvUnlisten h None) w2)) =
            (trace w ++ [EvInvoke (cmd_cancel_read p) (inl v);
                         EvInvoke (cmd_close p) (inl res);
                         EvUnlisten h None])%list
      | Some e =>
          close env s w =
            (Rejects (ErrString ("Error cancelling listen: " ++ error_to_string e)),
             s, log (EvUnlisten h (Some e)) w2)
      end
  end.
Proof.
  intros p w1 w2 Hopen Hcancel Hclose.
  split.
  { subst w2 w1. cbn. rewrite <- app_assoc. reflexivity. }
  rewrite close_run, Hopen. cbv zeta. fold p. rewrite Hcancel. fold w1.
  rewrite Hclose. fold w2. rewrite cancelListen_run.
  destruct (unListen s) as [h|]; [|reflexivity].
  destruct (feed_unlisten env (trace w2) h) as [e|]; [reflexivity|].
  split; [reflexivity|].
  subst w2 w1. cbn. rewrite <- !app_assoc. reflexivity.
Qed.

Lemma close_order_witness :
  close driver_ok com3_listening (world_listening quiet_fn) =
    (Returns VUndefined, com3,
     {| trace := [EvInvoke (cmd_cancel_read "COM3") (inl VUndefined);
                  EvInvoke (cmd_close "COM3") (inl VUndefined);
                  EvUnlisten 0 None];
        listeners := []; next_id := 1 |}).
Proof.
  apply (close_order driver_ok com3_listening (world_listening quiet_fn)
           VUndefined VUndefined); reflexivity.
Defined.

(** C5: on an open session, when the [cancel_read] command or the [close]
    command fails, [close] is rejected with that very failure; the session is
    unchanged (so still open, still holding its [UnlistenFn]), the feed's
    registrations are unchanged, and no [UnlistenFn] was called. *)
Theorem close_failure_changes_nothing (env : Env) (s : Serialport) (w : World)
    (e : Error) :
  let p := path (options s) in
  isOpen s = true ->
  remote env (trace w) (cmd_cancel_read p) = inr e \/
  (exists v,
     remote env (trace w) (cmd_cancel_read p) = inl v /\
     remote env (trace w ++ [EvInvoke (cmd_cancel_read p) (inl v)])%list
       (cmd_close p) = inr e) ->
  exists w' evs,
    close env s w = (Rejects e, s, w') /\
    listeners w' = listeners w /\
    trace w' = (trace w ++ evs)%list /\
    forall h t, ~ In (EvUnlisten h t) evs.
Proof.
  intros p Hopen [Hcancel | [v [Hcancel Hclose]]];
    rewrite close_run, Hopen; cbv zeta; fold p; rewrite Hcancel.
  - do 2 eexists. split; [reflexivity|]. split; [reflexivity|].
    split; [reflexivity|].
    intros h t [H|[]]; discriminate.
  - cbn. rewrite Hclose.
    do 2 eexists. split; [reflexivity|]. split; [reflexivity|].
    split; [cbn; rewrite <- app_assoc; reflexivity|].
    intros h t [H|[H|[]]]; discriminate.
Qed.

Lemma close_failure_changes_nothing_witness :
  exists w' evs,
    close (driver_failing "plugin:serialport|close") com3_listening
      (world_listening quiet_fn) =
      (Rejects (ErrObject 1 "Device busy"), com3_listening, w') /\
    listeners w' = listeners (world_listening quiet_fn) /\
    trace w' = (trace (world_listening quiet_fn) ++ evs)%list /\
    forall h t, ~ In (EvUnlisten h t) evs.
Proof.
  apply (close_failure_changes_nothing
           (driver_failing "plugin:serialport|close") com3_listening
           (world_listening quiet_fn) (ErrObject 1 "Device busy")).
  - reflexivity.
  - right. exists VUndefined. split; reflexivity.
Defined.

(** ** Reconfiguring *)

(** The three reconfiguring methods differ only in what they assign. *)
Lemma reconfigure_run (env : Env) (f : Serialport -> Serialport)
    (mutate : M unit) (s : Serialport) (w : World) :
  (forall s0 w0, mutate s0 w0 = (Returns tt, f s0, w0)) ->
  async (try_catch
    (s <- this ;;
     isOpened <- (if isOpen s then await (close env) ;;; ret true else ret false) ;;
     mutate ;;;
     (if isOpened : bool then await (open env) ;;; ret tt else ret tt) ;;;
     ret tt)
    (fun error => reject error)) s w =
  reconfigured env f s w.
Proof.
  intros Hmutate. unfold reconfigured.
  unfold async at 1, try_catch at 1, bind at 1, this at 1.
  destruct (isOpen s).
  - unfold bind at 1, bind at 1, await at 1.
    destruct (close env s w) as [[[r|e|e] s1] w1]; try reflexivity.
    unfold ret at 1, bind at 1. rewrite Hmutate.
    unfold bind at 1, bind at 1, await at 1.
    destruct (open env (f s1) w1) as [[[r2|e|e] s2] w2]; reflexivity.
  - unfold bind at 1, ret at 1, bind at 1. rewrite Hmutate. reflexivity.
Qed.

Lemma change_run (env : Env) (np : option string) (nb : option number)
    (s : Serialport) (w : World) :
  change env np nb s w =
  reconfigured env (changed np nb) s w.
Proof.
  unfold change, reconfigured.
  unfold async at 1, try_catch at 1, bind at 1, this at 1.
  destruct (isOpen s).
  - unfold bind at 1, bind at 1, await at 1.
    destruct (close env s w) as [[[r|e|e] s1] w1]; try reflexivity.
    unfold ret at 1, changed.
    destruct np as [p|]; [destruct (truthy_string p)|];
      (destruct nb as [b|]; [destruct (truthy_number b)|]);
      unfold bind at 1, assign, ret at 1;
      unfold bind at 1; try unfold ret at 1;
      unfold bind at 1, bind at 1, await at 1;
      match goal with
      | |- context [open env ?s ?w] =>
          destruct (open env s w) as [[[r2|e|e] s2] w2]; reflexivity
      end.
  - unfold changed, bind, assign, ret.
    destruct np as [p|]; [destruct (truthy_string p)|];
      (destruct nb as [b|]; [destruct (truthy_number b)|]); reflexivity.
Qed.

Lemma setBaudRate_run (env : Env) (value : number) (s : Serialport)
    (w : World) :
  setBaudRate env value s w =
  reconfigured env (set_baudRate (Some value)) s w.
Proof.
  apply (reconfigure_run env (set_baudRate (Some value))). reflexivity.
Qed.

Lemma setPath_run (env : Env) (value : string) (s : Serialport) (w : World) :
  setPath env value s w =
  reconfigured env (set_path value) s w.
Proof.
  apply (reconfigure_run env (set_path value)). reflexivity.
Qed.

(** What [close] and [open] leave behind. *)
Lemma close_returns_closed (env : Env) (s s1 : Serialport) (w w1 : World)
    (r : Value) :
  close env s w = (Returns r, s1, w1) -> isOpen s1 = false.
Proof.
  rewrite close_run. destruct (isOpen s) eqn:Hopen.
  - cbv zeta. destruct (remote env (trace w) _); [|discriminate].
    destruct (remote env _ (cmd_close _)); [|discriminate].
    destruct (cancelListen env s _) as [[[u|e|e] s3] w3]; try discriminate.
    intros H; inversion H; reflexivity.
  - intros H; inversion H; subst; assumption.
Qed.

Lemma close_never_throws (env : Env) (s s1 : Serialport) (w w1 : World)
    (e : Error) :
  close env s w <> (Throws e, s1, w1).
Proof.
  rewrite close_run. destruct (isOpen s); [|discriminate].
  cbv zeta. destruct (remote env (trace w) _); [|discriminate].
  destruct (remote env _ (cmd_close _)); [|discriminate].
  destruct (cancelListen env s _) as [[[u|e'|e'] s3] w3]; discriminate.
Qed.

Lemma open_fails_unchanged (env : Env) (s s1 : Serialport) (w w1 : World)
    (e : Error) :
  open env s w = (Rejects e, s1, w1) -> s1 = s.
Proof.
  rewrite open_run.
  destruct (negb (truthy_string _)); [intros H; inversion H; reflexivity|].
  destruct (negb (truthy_opt _ _)); [intros H; inversion H; reflexivity|].
  destruct (isOpen s); [discriminate|]. cbv zeta.
  destruct (remote env (trace w) _); [discriminate|].
  intros H; inversion H; reflexivity.
Qed.

(** C7: on an open session, [change({baudRate: v})] with a truthy [v] runs
    [close], then assigns the baud rate, then runs [open], one after the other.
    If it resolves, the session is open with baud rate [v], [close] had
    resolved leaving the session closed, and [open] resolved on the closed,
    reconfigured session, its [open] command (carrying [v]) being the last
    thing that happened.  If [close] resolved and the reopening is rejected,
    [change] is rejected with the same failure and the session ends closed. *)
Theorem change_baudRate_reopens (env : Env) (s : Serialport) (w : World)
    (v : number) :
  isOpen s = true ->
  truthy_number v = true ->
  (forall s' w',
     change env None (Some v) s w = (Returns tt, s', w') ->
     isOpen s' = true /\ baudRate (options s') = Some v /\
     exists r1 s1 w1 r2,
       close env s w = (Returns r1, s1, w1) /\
       isOpen s1 = false /\
       open env (set_baudRate (Some v) s1) w1 = (Returns r2, s', w') /\
       trace w' =
         (trace w1 ++
          [EvInvoke (cmd_open (path (options s1)) (Some v) (dataBits (options s1))
                       (flowControl (options s1)) (parity (options s1))
                       (stopBits (options s1)) (timeout (options s1)))
             (inl r2)])%list) /\
  (forall r1 s1 w1 e s2 w2,
     close env s w = (Returns r1, s1, w1) ->
     open env (set_baudRate (Some v) s1) w1 = (Rejects e, s2, w2) ->
     change env None (Some v) s w = (Rejects e, s2, w2) /\ isOpen s2 = false).
Proof.
  intros Hopen Hv.
  assert (Hchanged : forall s1, changed None (Some v) s1 = set_baudRate (Some v) s1).
  { intros s1. unfold changed. rewrite Hv. reflexivity. }
  split.
  - intros s' w'. rewrite change_run. unfold reconfigured. rewrite Hopen.
    destruct (close env s w) as [[[r1|e|e] s1] w1] eqn:Hclose; try discriminate.
    rewrite Hchanged.
    pose proof (close_returns_closed _ _ _ _ _ _ Hclose) as Hclosed.
    destruct (open env (set_baudRate (Some v) s1) w1) as [[[r2|e|e] s2] w2]
      eqn:Hreopen; try discriminate.
    intros H; inversion H; subst s2 w2; clear H.
    pose proof Hreopen as Hrun. rewrite open_run in Hrun.
    destruct (negb (truthy_string _)); [discriminate|].
    destruct (negb (truthy_opt _ _)); [discriminate|].
    cbn [isOpen set_baudRate set_options] in Hrun. rewrite Hclosed in Hrun.
    cbv zeta in Hrun.
    destruct (remote env (trace w1) _) as [res|e]; [|discriminate].
    inversion Hrun; subst r2 s' w'; clear Hrun.
    split; [reflexivity|]. split; [reflexivity|].
    exists r1, s1, w1, res. repeat split; assumption.
  - intros r1 s1 w1 e s2 w2 Hclose Hreopen.
    rewrite change_run. unfold reconfigured.
    rewrite Hopen, Hclose, Hchanged, Hreopen.
    split; [reflexivity|].
    rewrite (open_fails_unchanged _ _ _ _ _ _ Hreopen).
    apply (close_returns_closed _ _ _ _ _ _ Hclose).
Qed.

Lemma change_baudRate_reopens_witness :
  (let r := change driver_ok None (Some (Num 115200)) com3_listening
              (world_listening quiet_fn) in
   isOpen (snd (fst r)) = true /\
   baudRate (options (snd (fst r))) = Some (Num 115200)) /\
  (let r := change (driver_failing "plugin:serialport|open") None
              (Some (Num 115200)) com3_listening (world_listening quiet_fn) in
   fst (fst r) = Rejects (ErrObject 1 "Device busy") /\
   isOpen (snd (fst r)) = false).
Proof.
  split.
  - destruct (change_baudRate_reopens driver_ok com3_listening
                (world_listening quiet_fn) (Num 115200) eq_refl eq_refl)
      as [Hok _].
    destruct (Hok _ _ eq_refl) as [H1 [H2 _]]. split; assumption.
  - destruct (change_baudRate_reopens (driver_failing "plugin:serialport|open")
                com3_listening (world_listening quiet_fn) (Num 115200)
                eq_refl eq_refl) as [_ Hfail].
    destruct (Hfail _ _ _ _ _ _ eq_refl eq_refl) as [H1 H2].
    split; [rewrite H1; reflexivity | assumption].
Defined.

(** ** Event delivery *)

Lemma handler_run (env : Env) (l : Listener) (payload : ReadDataResult)
    (s : Serialport) (w : World) :
  handler env l payload s w =
  match handler_arg env s l payload with
  | inl arg =>
      match l_fn l arg with
      | None => (Returns tt, s, log (EvCallback arg None) w)
      | Some e =>
          (Returns tt, s, log (EvConsoleError e) (log (EvCallback arg (Some e)) w))
      end
  | inr e => (Returns tt, s, log (EvConsoleError e) w)
  end.
Proof.
  unfold handler, handler_arg; unfold_monad.
  destruct (l_isDecode l); cbn.
  - destruct (text_decoder env (encoding s)) as [d|e];
      unfold ret, throw; cbn; [|reflexivity].
    destruct (l_fn l _); reflexivity.
  - destruct (l_fn l _); reflexivity.
Qed.

Lemma handler_frame (env : Env) (l : Listener) (payload : ReadDataResult)
    (s : Serialport) (w : World) :
  exists evs,
    handler env l payload s w =
      (Returns tt, s,
       {| trace := (trace w ++ evs)%list; listeners := listeners w;
          next_id := next_id w |}).
Proof.
  rewrite handler_run.
  destruct (handler_arg env s l payload) as [arg|e];
    [destruct (l_fn l arg) as [e|]|].
  - exists [EvCallback arg (Some e); EvConsoleError e].
    unfold log; cbn. rewrite <- app_assoc. reflexivity.
  - exists [EvCallback arg None]. reflexivity.
  - exists [EvConsoleError e]. reflexivity.
Qed.

Lemma dispatch_frame (env : Env) (ls : list (UnlistenFn * Listener))
    (event : string) (payload : ReadDataResult) (s : Serialport) (w : World) :
  exists evs,
    dispatch env ls event payload s w =
      (Returns tt, s,
       {| trace := (trace w ++ evs)%list; listeners := listeners w;
          next_id := next_id w |}).
Proof.
  revert w. induction ls as [|[h l] rest IH]; intros w; cbn [dispatch].
  - exists []. rewrite app_nil_r. destruct w; reflexivity.
  - unfold bind at 1. destruct (String.eqb (l_event l) event).
    + destruct (handler_frame env l payload s w) as [evs1 ->].
      destruct (IH {| trace := (trace w ++ evs1)%list; listeners := listeners w;
                      next_id := next_id w |}) as [evs2 ->].
      exists (evs1 ++ evs2)%list. cbn. rewrite app_assoc. reflexivity.
    + unfold ret at 1. apply IH.
Qed.

(** C9: when the callback throws on a delivered event, the handler logs the
    exception with [console.error] and returns normally; the session and the
    feed's registrations are untouched, so the next event reaches the callback
    again.  The outcome of the [listen] call does not depend on the callback at
    all. *)
Theorem callback_failure_is_contained (env : Env) (l : Listener)
    (payload payload' : ReadDataResult) (s : Serialport) (w : World)
    (arg arg' : CallbackArg) (e : Error) :
  handler_arg env s l payload = inl arg ->
  l_fn l arg = Some e ->
  handler_arg env s l payload' = inl arg' ->
  let w1 :=
    {| trace := (trace w ++ [EvCallback arg (Some e); EvConsoleError e])%list;
       listeners := listeners w; next_id := next_id w |} in
  handler env l payload s w = (Returns tt, s, w1) /\
  (exists evs,
     handler env l payload' s w1 =
       (Returns tt, s,
        {| trace := (trace w1 ++ EvCallback arg' (l_fn l arg') :: evs)%list;
           listeners := listeners w; next_id := next_id w |})) /\
  (forall fn' s0 w0,
     fst (fst (listen env (l_fn l) (l_isDecode l) s0 w0)) =
     fst (fst (listen env fn' (l_isDecode l) s0 w0)) /\
     trace (snd (listen env (l_fn l) (l_isDecode l) s0 w0)) =
     trace (snd (listen env fn' (l_isDecode l) s0 w0))).
Proof.
  intros Harg Hthrows Harg' w1. split; [|split].
  - rewrite handler_run, Harg, Hthrows. subst w1. unfold log; cbn.
    rewrite <- app_assoc. reflexivity.
  - rewrite handler_run, Harg'.
    destruct (l_fn l arg') as [e'|].
    + exists [EvConsoleError e']. unfold log; cbn.
      rewrite <- app_assoc. reflexivity.
    + exists []. reflexivity.
  - intros fn' s0 w0. rewrite !listen_run.
    destruct (cancelListen env s0 w0) as [[[u|e0|e0] s1] w1'];
      try (split; reflexivity).
    cbn. destruct (feed_listen env (trace w1') _); split; reflexivity.
Qed.

Lemma callback_failure_is_contained_witness :
  let l := {| l_event := "plugin-serialport-read-COM3"; l_isDecode := true;
              l_fn := throwing_fn |} in
  let boom := ErrException "Error" "boom" in
  handler driver_ok l hello com3_listening (world_listening throwing_fn) =
    (Returns tt, com3_listening,
     {| trace := [EvCallback (ArgText "hello") (Some boom); EvConsoleError boom];
        listeners := listeners (world_listening throwing_fn);
        next_id := 1 |}).
Proof.
  cbv zeta.
  apply (callback_failure_is_contained driver_ok
           {| l_event := "plugin-serialport-read-COM3"; l_isDecode := true;
              l_fn := throwing_fn |}
           hello hello com3_listening (world_listening throwing_fn)
           (ArgText "hello") (ArgText "hello") (ErrException "Error" "boom"));
    reflexivity.
Defined.

Example throwing_callback_keeps_receiving :
  let '(r, s1, w1) := listen driver_ok throwing_fn false com3 empty_world in
  let '(_, s2, w2) := emit driver_ok "plugin-serialport-read-COM3" hello s1 w1 in
  let '(_, s3, w3) := emit driver_ok "plugin-serialport-read-COM3" hello s2 w2 in
  let boom := ErrException "Error" "boom" in
  let bytes := ArgBytes [104; 101; 108; 108; 111]%Z in
  r = Returns tt /\ unListen s3 = Some 0%nat /\
  map fst (listeners w3) = [0%nat] /\
  trace w3 =
    [EvListen "plugin-serialport-read-COM3" (inl 0%nat);
     EvCallback bytes (Some boom); EvConsoleError boom;
     EvCallback bytes (Some boom); EvConsoleError boom].
Proof. vm_compute. repeat split. Qed.

(** ** What the methods preserve *)

Section Invariants.

Variable env : Env.

Lemma cancelListen_session (s s1 : Serialport) (w w1 : World)
    (r : Completion unit) :
  cancelListen env s w = (r, s1, w1) ->
  isOpen s1 = isOpen s /\ options s1 = options s.
Proof.
  rewrite cancelListen_run.
  destruct (unListen s) as [h|]; [destruct (feed_unlisten env (trace w) h)|];
    intros H; inversion H; subst; split; reflexivity.
Qed.

Lemma close_session (s s1 : Serialport) (w w1 : World) (r : Completion Value) :
  close env s w = (r, s1, w1) ->
  options s1 = options s /\ (isOpen s1 = true -> isOpen s = true).
Proof.
  rewrite close_run. destruct (isOpen s) eqn:Hopen.
  - cbv zeta. destruct (remote env (trace w) _);
      [|intros H; inversion H; subst; auto].
    destruct (remote env _ (cmd_close _));
      [|intros H; inversion H; subst; auto].
    destruct (cancelListen env s _) as [[[u|e|e] s3] w3] eqn:Hcancel;
      destruct (cancelListen_session _ _ _ _ _ Hcancel) as [Hi Ho];
      intros H; inversion H; subst; cbn; auto.
  - intros H; inversion H; subst. split; [reflexivity|congruence].
Qed.

Lemma close_rejects_unchanged (s s1 : Serialport) (w w1 : World) (e : Error) :
  close env s w = (Rejects e, s1, w1) -> s1 = s.
Proof.
  rewrite close_run. destruct (isOpen s); [|discriminate].
  cbv zeta. destruct (remote env (trace w) _);
    [|intros H; inversion H; reflexivity].
  destruct (remote env _ (cmd_close _));
    [|intros H; inversion H; reflexivity].
  rewrite cancelListen_run.
  destruct (unListen s) as [h|]; [|discriminate].
  destruct (feed_unlisten env _ h); [|discriminate].
  intros H; inversion H; reflexivity.
Qed.

Lemma open_keeps_configured (s s1 : Serialport) (w w1 : World)
    (r : Completion Value) :
  open_is_configured s ->
  open env s w = (r, s1, w1) ->
  open_is_configured s1.
Proof.
  intros Hinv. rewrite open_run.
  destruct (negb (truthy_string _)) eqn:Hp;
    [intros H; inversion H; subst; assumption|].
  destruct (negb (truthy_opt _ _)) eqn:Hb;
    [intros H; inversion H; subst; assumption|].
  destruct (isOpen s); [intros H; inversion H; subst; assumption|].
  cbv zeta. destruct (remote env (trace w) _);
    intros H; inversion H; subst; [|assumption].
  intros _. unfold configured. cbn.
  apply negb_false_iff in Hp, Hb. rewrite Hp, Hb. reflexivity.
Qed.

Lemma reconfigured_keeps_configured (f : Serialport -> Serialport)
    (s s1 : Serialport) (w w1 : World) (r : Completion unit) :
  (forall s0, isOpen (f s0) = isOpen s0) ->
  open_is_configured s ->
  reconfigured env f s w = (r, s1, w1) ->
  open_is_configured s1.
Proof.
  intros Hf Hinv. unfold reconfigured. destruct (isOpen s) eqn:Hopen.
  - destruct (close env s w) as [[[v|e|e] s2] w2] eqn:Hclose.
    + pose proof (close_returns_closed _ _ _ _ _ _ Hclose) as Hclosed.
      assert (Hmid : open_is_configured (f s2)).
      { intros H. rewrite Hf, Hclosed in H. discriminate. }
      destruct (open env (f s2) w2) as [[r3 s3] w3] eqn:Hreopen.
      pose proof (open_keeps_configured _ _ _ _ _ Hmid Hreopen) as Hend.
      destruct r3; intros Heq; inversion Heq; subst; assumption.
    + rewrite (close_rejects_unchanged _ _ _ _ _ Hclose).
      intros H; inversion H; subst; assumption.
    + destruct (close_never_throws _ _ _ _ _ _ Hclose).
  - intros H; inversion H; subst.
    intros Hnow. rewrite Hf, Hopen in Hnow. discriminate.
Qed.

Lemma changed_isOpen (np : option string) (nb : option number)
    (s : Serialport) :
  isOpen (changed np nb s) = isOpen s.
Proof.
  unfold changed.
  destruct np as [p|]; [destruct (truthy_string p)|];
    (destruct nb as [b|]; [destruct (truthy_number b)|]); reflexivity.
Qed.

Lemma changed_unListen (np : option string) (nb : option number)
    (s : Serialport) :
  unListen (changed np nb s) = unListen s.
Proof.
  unfold changed.
  destruct np as [p|]; [destruct (truthy_string p)|];
    (destruct nb as [b|]; [destruct (truthy_number b)|]); reflexivity.
Qed.

(** The methods that only send a command, or refuse locally, change neither
    the session nor the feed's registrations. *)
Lemma cancelRead_frame (s : Serialport) (w : World) :
  snd (fst (cancelRead env s w)) = s /\
  listeners (snd (cancelRead env s w)) = listeners w.
Proof.
  rewrite cancelRead_run. cbv zeta.
  destruct (remote env (trace w) _); split; reflexivity.
Qed.

Lemma read_frame (opts : option ReadOptions) (s : Serialport) (w : World) :
  snd (fst (read env opts s w)) = s /\
  listeners (snd (read env opts s w)) = listeners w.
Proof.
  rewrite read_run. cbv zeta.
  destruct (remote env (trace w) _); split; reflexivity.
Qed.

Lemma write_frame (value : string) (s : Serialport) (w : World) :
  snd (fst (write env value s w)) = s /\
  listeners (snd (write env value s w)) = listeners w.
Proof.
  unfold write; unfold_monad; cbn.
  destruct (isOpen s); cbn; [|split; reflexivity].
  destruct (remote env (trace w) _); split; reflexivity.
Qed.

Lemma writeBinary_frame (value : BinaryValue) (s : Serialport) (w : World) :
  snd (fst (writeBinary env value s w)) = s /\
  listeners (snd (writeBinary env value s w)) = listeners w.
Proof.
  unfold writeBinary; unfold_monad; cbn.
  destruct (isOpen s); cbn; [|split; reflexivity].
  destruct value; cbn; try (split; reflexivity);
    destruct (remote env (trace w) _); split; reflexivity.
Qed.

Lemma emit_frame (event : string) (payload : ReadDataResult)
    (s : Serialport) (w : World) :
  snd (fst (emit env event payload s w)) = s /\
  listeners (snd (emit env event payload s w)) = listeners w.
Proof.
  unfold emit.
  destruct (dispatch_frame env (listeners w) event payload s w) as [evs ->].
  split; reflexivity.
Qed.

Lemma perform_keeps_configured (c : Call) (s : Serialport) (w : World) :
  open_is_configured s ->
  open_is_configured (fst (perform env c s w)).
Proof.
  intros Hinv. destruct c; cbn [perform after fst snd].
  - destruct (cancelListen env s w) as [[r s1] w1] eqn:H.
    destruct (cancelListen_session _ _ _ _ _ H) as [Hi Ho]. cbn.
    unfold open_is_configured, configured in *. rewrite Hi, Ho. assumption.
  - rewrite (proj1 (cancelRead_frame s w)). assumption.
  - destruct (change env new_path new_baudRate s w) as [[r s1] w1] eqn:H.
    rewrite change_run in H. cbn.
    apply (reconfigured_keeps_configured _ _ _ _ _ _
             (changed_isOpen new_path new_baudRate) Hinv H).
  - destruct (close env s w) as [[r s1] w1] eqn:H.
    destruct (close_session _ _ _ _ _ H) as [Ho Hi]. cbn.
    unfold open_is_configured, configured in *. rewrite Ho. auto.
  - destruct (listen env fn isDecode s w) as [[r s1] w1] eqn:H.
    rewrite listen_run in H. cbn.
    destruct (cancelListen env s w) as [[[u|e|e] s2] w2] eqn:Hc;
      destruct (cancelListen_session _ _ _ _ _ Hc) as [Hi Ho];
      [cbv zeta in H; cbn in H; destruct (feed_listen env (trace w2) _)| |];
      inversion H; subst;
      unfold open_is_configured, configured in *; cbn; rewrite Hi, Ho;
      assumption.
  - destruct (open env s w) as [[r s1] w1] eqn:H. cbn.
    apply (open_keeps_configured _ _ _ _ _ Hinv H).
  - rewrite (proj1 (read_frame opts s w)). assumption.
  - destruct (setBaudRate env value s w) as [[r s1] w1] eqn:H.
    rewrite setBaudRate_run in H. cbn.
    apply (reconfigured_keeps_configured (set_baudRate (Some value)) _ _ _ _ _
             (fun s0 => eq_refl) Hinv H).
  - destruct (setPath env value s w) as [[r s1] w1] eqn:H.
    rewrite setPath_run in H. cbn.
    apply (reconfigured_keeps_configured (set_path value) _ _ _ _ _
             (fun s0 => eq_refl) Hinv H).
  - rewrite (proj1 (write_frame value s w)). assumption.
  - rewrite (proj1 (writeBinary_frame value s w)). assumption.
  - rewrite (proj1 (emit_frame event payload s w)). assumption.
Qed.

Lemma reachable_configured (s : Serialport) (w : World) :
  Reachable env s w -> open_is_configured s.
Proof.
  induction 1 as [o | c s w Hreach IH].
  - intros H. discriminate.
  - apply perform_keeps_configured. assumption.
Qed.

End Invariants.

(** ** Opening *)

(** C6: when the path is empty or the baud rate is unset (or otherwise falsy),
    [open] is rejected with a message made locally, and the session and the
    world are exactly as before: no command was sent.  Every session a client
    can have reached in that condition is closed, and so stays closed. *)
Theorem open_validates_locally (env : Env) (s : Serialport) (w : World) :
  path (options s) = "" \/
  truthy_opt truthy_number (baudRate (options s)) = false ->
  exists msg,
    (msg = "Path cannot be empty!" \/ msg = "Baudrate cannot be empty!") /\
    open env s w = (Rejects (ErrString msg), s, w) /\
    (Reachable env s w -> isOpen s = false).
Proof.
  intros Hbad.
  assert (Hconf : configured s = false).
  { unfold configured. destruct Hbad as [-> | ->];
      [reflexivity | apply andb_false_r]. }
  assert (Hclosed : Reachable env s w -> isOpen s = false).
  { intros Hreach. pose proof (reachable_configured env s w Hreach) as Hinv.
    destruct (isOpen s) eqn:Hopen; [|reflexivity].
    rewrite (Hinv Hopen) in Hconf. discriminate. }
  rewrite open_run. unfold configured in Hconf.
  destruct (truthy_string (path (options s))); cbn in *.
  - rewrite Hconf. cbn. exists "Baudrate cannot be empty!". auto.
  - exists "Path cannot be empty!". auto.
Qed.

Lemma open_validates_locally_witness :
  exists msg,
    (msg = "Path cannot be empty!" \/ msg = "Baudrate cannot be empty!") /\
    open driver_ok (set_baudRate None com3) empty_world =
      (Rejects (ErrString msg), set_baudRate None com3, empty_world) /\
    isOpen (set_baudRate None com3) = false.
Proof.
  destruct (open_validates_locally driver_ok (set_baudRate None com3)
              empty_world (or_intror eq_refl)) as [msg [Hmsg [Hrun Hclosed]]].
  exists msg. split; [exact Hmsg|]. split; [exact Hrun|].
  apply Hclosed.
  exact (Reachable_new driver_ok
           {| so_path := "COM3"; so_baudRate := None;
              so_encoding := None; so_dataBits := None; so_flowControl := None;
              so_parity := None; so_stopBits := None; so_timeout := None;
              so_size := None |}).
Defined.

Example setPath_empty_closes :
  let '(r, s', w') := setPath driver_ok "" com3_open empty_world in
  r = Rejects (ErrString "Path cannot be empty!") /\ isOpen s' = false /\
  commands_of (trace w') = [cmd_cancel_read "COM3"; cmd_close "COM3"].
Proof. vm_compute. repeat split. Qed.

(** ** The subscription *)

Section Subscription.

Variable env : Env.

Lemma one_subscription_ext (s s' : Serialport) (w w' : World) :
  unListen s' = unListen s ->
  listeners w' = listeners w ->
  one_subscription s w -> one_subscription s' w'.
Proof.
  unfold one_subscription. intros -> ->. trivial.
Qed.

Lemma one_subscription_none (s : Serialport) (w : World) :
  listeners w = [] -> one_subscription s w.
Proof.
  unfold one_subscription. intros ->. split; [cbn; lia|].
  intros h l [].
Qed.

Lemma holding_nothing (s : Serialport) (w : World) :
  one_subscription s w -> unListen s = None -> listeners w = [].
Proof.
  intros [_ Hheld] Hnone.
  destruct (listeners w) as [|[h l] rest]; [reflexivity|].
  specialize (Hheld h l (or_introl eq_refl)). congruence.
Qed.

Lemma released_all (s : Serialport) (w : World) (h : UnlistenFn) :
  one_subscription s w -> unListen s = Some h ->
  filter (fun hl => negb (Nat.eqb (fst hl) h)) (listeners w) = [].
Proof.
  intros [_ Hheld] Hsome.
  induction (listeners w) as [|[h' l] rest IH]; [reflexivity|].
  cbn [filter fst].
  assert (h' = h).
  { specialize (Hheld h' l (or_introl eq_refl)). congruence. }
  subst h'. rewrite Nat.eqb_refl. cbn.
  apply IH. intros h0 l0 Hin. apply (Hheld h0 l0). right. assumption.
Qed.

Lemma cancelListen_keeps_subscription (s s1 : Serialport) (w w1 : World)
    (r : Completion unit) :
  one_subscription s w ->
  cancelListen env s w = (r, s1, w1) ->
  one_subscription s1 w1.
Proof.
  intros Hinv. rewrite cancelListen_run.
  destruct (unListen s) as [h|] eqn:Hheld.
  - destruct (feed_unlisten env (trace w) h);
      intros H; inversion H; subst.
    + (eapply one_subscription_ext; [| |eassumption]; reflexivity).
    + apply one_subscription_none. cbn.
      apply (released_all s w h Hinv Hheld).
  - intros H; inversion H; subst; assumption.
Qed.

Lemma cancelListen_returns_none (s s1 : Serialport) (w w1 : World) (u : unit) :
  cancelListen env s w = (Returns u, s1, w1) -> unListen s1 = None.
Proof.
  rewrite cancelListen_run.
  destruct (unListen s) as [h|] eqn:Hheld.
  - destruct (feed_unlisten env (trace w) h); [discriminate|].
    intros H; inversion H; reflexivity.
  - intros H; inversion H; subst; assumption.
Qed.

Lemma close_keeps_subscription (s s1 : Serialport) (w w1 : World)
    (r : Completion Value) :
  one_subscription s w ->
  close env s w = (r, s1, w1) ->
  one_subscription s1 w1.
Proof.
  intros Hinv. rewrite close_run. destruct (isOpen s).
  - cbv zeta. destruct (remote env (trace w) _);
      [|intros H; inversion H; subst;
        (eapply one_subscription_ext; [| |eassumption]; reflexivity)].
    destruct (remote env _ (cmd_close _));
      [|intros H; inversion H; subst;
        (eapply one_subscription_ext; [| |eassumption]; reflexivity)].
    destruct (cancelListen env s _) as [[[u|e|e] s3] w3] eqn:Hcancel;
      intros H; inversion H; subst;
      (eapply one_subscription_ext;
       [| |eapply cancelListen_keeps_subscription; [|exact Hcancel];
           (eapply one_subscription_ext; [| |eassumption]; reflexivity)]; reflexivity).
  - intros H; inversion H; subst; assumption.
Qed.

Lemma open_keeps_subscription (s s1 : Serialport) (w w1 : World)
    (r : Completion Value) :
  one_subscription s w ->
  open env s w = (r, s1, w1) ->
  one_subscription s1 w1.
Proof.
  intros Hinv. rewrite open_run.
  destruct (negb (truthy_string _));
    [intros H; inversion H; subst; assumption|].
  destruct (negb (truthy_opt _ _));
    [intros H; inversion H; subst; assumption|].
  destruct (isOpen s); [intros H; inversion H; subst; assumption|].
  cbv zeta. destruct (remote env (trace w) _);
    intros H; inversion H; subst;
    (eapply one_subscription_ext; [| |eassumption]; reflexivity).
Qed.

Lemma listen_keeps_subscription (fn : Callback) (isDecode : bool)
    (s s1 : Serialport) (w w1 : World) (r : Completion unit) :
  one_subscription s w ->
  listen env fn isDecode s w = (r, s1, w1) ->
  one_subscription s1 w1.
Proof.
  intros Hinv. rewrite listen_run.
  destruct (cancelListen env s w) as [[[u|e|e] s2] w2] eqn:Hcancel;
    pose proof (cancelListen_keeps_subscription _ _ _ _ _ Hinv Hcancel) as Hmid;
    [|intros H; inversion H; subst; assumption ..].
  pose proof (cancelListen_returns_none _ _ _ _ _ Hcancel) as Hnone.
  pose proof (holding_nothing _ _ Hmid Hnone) as Hempty.
  cbv zeta. cbn [l_event].
  destruct (feed_listen env (trace w2) _); intros H; inversion H; subst.
  - (eapply one_subscription_ext; [| |eassumption]; reflexivity).
  - unfold one_subscription. cbn. rewrite Hempty. cbn. split; [lia|].
    intros h l [Heq|[]]. inversion Heq. reflexivity.
Qed.

Lemma reconfigured_keeps_subscription (f : Serialport -> Serialport)
    (s s1 : Serialport) (w w1 : World) (r : Completion unit) :
  (forall s0, unListen (f s0) = unListen s0) ->
  one_subscription s w ->
  reconfigured env f s w = (r, s1, w1) ->
  one_subscription s1 w1.
Proof.
  intros Hf Hinv. unfold reconfigured. destruct (isOpen s).
  - destruct (close env s w) as [[[v|e|e] s2] w2] eqn:Hclose;
      pose proof (close_keeps_subscription _ _ _ _ _ Hinv Hclose) as Hmid;
      [|intros H; inversion H; subst; assumption ..].
    assert (Hmut : one_subscription (f s2) w2).
    { exact (one_subscription_ext _ _ _ _ (Hf s2) eq_refl Hmid). }
    destruct (open env (f s2) w2) as [[r3 s3] w3] eqn:Hreopen.
    pose proof (open_keeps_subscription _ _ _ _ _ Hmut Hreopen) as Hend.
    destruct r3; intros H; inversion H; subst; assumption.
  - intros H; inversion H; subst.
    exact (one_subscription_ext _ _ _ _ (Hf _) eq_refl Hinv).
Qed.

Lemma perform_keeps_subscription (c : Call) (s : Serialport) (w : World) :
  one_subscription s w ->
  one_subscription (fst (perform env c s w)) (snd (perform env c s w)).
Proof.
  intros Hinv. destruct c; cbn [perform after fst snd].
  - destruct (cancelListen env s w) as [[r s1] w1] eqn:H.
    apply (cancelListen_keeps_subscription _ _ _ _ _ Hinv H).
  - destruct (cancelRead_frame env s w) as [Hs Hw].
    apply (one_subscription_ext s _ w); assumption || (rewrite Hs; reflexivity).
  - destruct (change env new_path new_baudRate s w) as [[r s1] w1] eqn:H.
    rewrite change_run in H.
    apply (reconfigured_keeps_subscription (changed new_path new_baudRate)
             _ _ _ _ _ (changed_unListen new_path new_baudRate) Hinv H).
  - destruct (close env s w) as [[r s1] w1] eqn:H.
    apply (close_keeps_subscription _ _ _ _ _ Hinv H).
  - destruct (listen env fn isDecode s w) as [[r s1] w1] eqn:H.
    apply (listen_keeps_subscription _ _ _ _ _ _ _ Hinv H).
  - destruct (open env s w) as [[r s1] w1] eqn:H.
    apply (open_keeps_subscription _ _ _ _ _ Hinv H).
  - destruct (read_frame env opts s w) as [Hs Hw].
    apply (one_subscription_ext s _ w); assumption || (rewrite Hs; reflexivity).
  - destruct (setBaudRate env value s w) as [[r s1] w1] eqn:H.
    rewrite setBaudRate_run in H.
    apply (reconfigured_keeps_subscription (set_baudRate (Some value))
             _ _ _ _ _ (fun s0 => eq_refl) Hinv H).
  - destruct (setPath env value s w) as [[r s1] w1] eqn:H.
    rewrite setPath_run in H.
    apply (reconfigured_keeps_subscription (set_path value)
             _ _ _ _ _ (fun s0 => eq_refl) Hinv H).
  - destruct (write_frame env value s w) as [Hs Hw].
    apply (one_subscription_ext s _ w); assumption || (rewrite Hs; reflexivity).
  - destruct (writeBinary_frame env value s w) as [Hs Hw].
    apply (one_subscription_ext s _ w); assumption || (rewrite Hs; reflexivity).
  - destruct (emit_frame env event payload s w) as [Hs Hw].
    apply (one_subscription_ext s _ w); assumption || (rewrite Hs; reflexivity).
Qed.

End Subscription.

Lemma released_absent (h : UnlistenFn) (w : World) :
  ~ In h (map fst (listeners (release h w))).
Proof.
  unfold release; cbn. intros Hin.
  apply in_map_iff in Hin. destruct Hin as [[h' l] [Heq Hin]].
  apply filter_In in Hin. destruct Hin as [_ Hne].
  cbn in Heq, Hne. subst h'. rewrite Nat.eqb_refl in Hne. discriminate.
Qed.

(** C8: a session has at most one registration active on the feed, and it is
    the one whose [UnlistenFn] the session holds: this is so for a new
    session, every call keeps it so, and so it holds of every session a client
    can reach.  [listen] calls the held [UnlistenFn] before it registers, and
    does not register at all when that call throws; [cancelListen] releases
    the held registration and forgets it, does nothing when none is held, and
    once it has resolved, calling it again resolves without doing anything. *)
Theorem at_most_one_subscription (env : Env) :
  (forall o, one_subscription (constructor o) empty_world) /\
  (forall c s w,
     one_subscription s w ->
     one_subscription (fst (perform env c s w)) (snd (perform env c s w))) /\
  (forall s w, Reachable env s w -> one_subscription s w) /\
  (forall fn d s w h,
     unListen s = Some h ->
     let event := "plugin-serialport-read-" ++ path (options s) in
     match feed_unlisten env (trace w) h with
     | None =>
         exists r,
           trace (snd (listen env fn d s w)) =
             (trace w ++ [EvUnlisten h None; EvListen event r])%list
     | Some e =>
         trace (snd (listen env fn d s w)) =
           (trace w ++ [EvUnlisten h (Some e)])%list /\
         listeners (snd (listen env fn d s w)) = listeners w
     end) /\
  (forall s w h,
     unListen s = Some h ->
     feed_unlisten env (trace w) h = None ->
     cancelListen env s w =
       (Returns tt, set_unListen None s, release h (log (EvUnlisten h None) w)) /\
     ~ In h (map fst (listeners (release h (log (EvUnlisten h None) w))))) /\
  (forall s w, unListen s = None -> cancelListen env s w = (Returns tt, s, w)) /\
  (forall s w u s1 w1,
     cancelListen env s w = (Returns u, s1, w1) ->
     cancelListen env s1 w1 = (Returns tt, s1, w1)).
Proof.
  assert (Hnew : forall o, one_subscription (constructor o) empty_world).
  { intros o. apply one_subscription_none. reflexivity. }
  split; [exact Hnew|].
  split; [intros c s w; apply perform_keeps_subscription|].
  split; [|split; [|split; [|split]]].
  - intros s w Hreach. induction Hreach as [o | c s w Hreach IH].
    + apply Hnew.
    + apply perform_keeps_subscription. exact IH.
  - intros fn d s w h Hheld event.
    rewrite listen_run, cancelListen_run, Hheld.
    destruct (feed_unlisten env (trace w) h) as [e|].
    + split; reflexivity.
    + cbv zeta. cbn [l_event set_unListen options].
      destruct (feed_listen env _ _) as [e|]; eexists; cbn;
        rewrite <- app_assoc; reflexivity.
  - intros s w h Hheld Hok. rewrite cancelListen_run, Hheld, Hok.
    split; [reflexivity|]. apply released_absent.
  - intros s w Hnone. rewrite cancelListen_run, Hnone. reflexivity.
  - intros s w u s1 w1 Hfirst.
    rewrite cancelListen_run,
      (cancelListen_returns_none env _ _ _ _ _ Hfirst). reflexivity.
Qed.

Example listen_twice_one_subscription :
  let '(_, s1, w1) := listen driver_ok quiet_fn true com3 empty_world in
  let '(_, s2, w2) := listen driver_ok throwing_fn false s1 w1 in
  unListen s2 = Some 1%nat /\ map fst (listeners w2) = [1%nat] /\
  trace w2 =
    [EvListen "plugin-serialport-read-COM3" (inl 0%nat);
     EvUnlisten 0 None;
     EvListen "plugin-serialport-read-COM3" (inl 1%nat)].
Proof. vm_compute. repeat split. Qed.

(** * Further properties of the class *)

(** ** [open] *)

Lemma configured_split (s : Serialport) :
  configured s = true ->
  truthy_string (path (options s)) = true /\
  truthy_opt truthy_number (baudRate (options s)) = true.
Proof.
  unfold configured. intros H. apply andb_true_iff in H. exact H.
Qed.

(** X1: [open] on a session that is already open (and has a path and a baud
    rate) resolves with [undefined] without sending anything: the session and
    the world are unchanged. *)
Theorem open_already_open_is_noop (env : Env) (s : Serialport) (w : World) :
  isOpen s = true ->
  configured s = true ->
  open env s w = (Returns VUndefined, s, w).
Proof.
  intros Hopen Hconf. destruct (configured_split s Hconf) as [Hp Hb].
  rewrite open_run, Hp, Hb, Hopen. reflexivity.
Qed.

Lemma open_already_open_is_noop_witness :
  open driver_ok com3_open empty_world = (Returns VUndefined, com3_open, empty_world).
Proof.
  apply (open_already_open_is_noop driver_ok com3_open empty_world);
    reflexivity.
Defined.

(** X2: [open] on a closed session with a path and a baud rate sends exactly
    one command, [open], carrying the session's whole configuration.  When the
    driver accepts, the call resolves with the driver's answer and the session
    becomes open; when the driver refuses, the call is rejected with the
    driver's error as it is and the session stays as it was.  Either way the
    feed's registrations are untouched. *)
Theorem open_closed_sends_configuration (env : Env) (s : Serialport)
    (w : World) :
  isOpen s = false ->
  configured s = true ->
  let c := cmd_open (path (options s)) (baudRate (options s))
             (dataBits (options s)) (flowControl (options s))
             (parity (options s)) (stopBits (options s))
             (timeout (options s)) in
  let out := open env s w in
  commands_of (trace (snd out)) = (commands_of (trace w) ++ [c])%list /\
  listeners (snd out) = listeners w /\
  (forall res, remote env (trace w) c = inl res ->
     fst out = (Returns res, set_isOpen true s)) /\
  (forall e, remote env (trace w) c = inr e -> fst out = (Rejects e, s)).
Proof.
  intros Hclosed Hconf c out. destruct (configured_split s Hconf) as [Hp Hb].
  subst out. rewrite open_run, Hp, Hb, Hclosed. cbn [negb]. cbv zeta. fold c.
  destruct (remote env (trace w) c) as [res|e]; cbn;
    rewrite commands_of_app; cbn;
    (split; [reflexivity|]); (split; [reflexivity|]);
    split; intros x Hx; inversion Hx; reflexivity.
Qed.

Lemma open_closed_sends_configuration_witness :
  commands_of (trace (snd (open driver_ok com3 empty_world))) =
    [cmd_open "COM3" (Some (Num 9600)) DB8 None None SB2 (Num 200)] /\
  fst (open driver_ok com3 empty_world) = (Returns VUndefined, com3_open).
Proof.
  destruct (open_closed_sends_configuration driver_ok com3 empty_world
              eq_refl eq_refl) as [Hcmd [_ [Hok _]]].
  split; [exact Hcmd | exact (Hok VUndefined eq_refl)].
Defined.

(** X3: [open] validates before it looks at [isOpen], and the path before the
    baud rate: with an empty path the rejection says so whatever the baud rate
    and even on a session marked open; with a path but a falsy baud rate it is
    the baud rate that is reported. *)
Theorem open_validation_order (env : Env) (s : Serialport) (w : World) :
  (path (options s) = "" ->
   open env s w = (Rejects (ErrString "Path cannot be empty!"), s, w)) /\
  (path (options s) <> "" ->
   truthy_opt truthy_number (baudRate (options s)) = false ->
   open env s w = (Rejects (ErrString "Baudrate cannot be empty!"), s, w)).
Proof.
  split.
  - intros Hp. rewrite open_run, Hp. reflexivity.
  - intros Hp Hb. rewrite open_run, Hb.
    destruct (path (options s)); [congruence|]. reflexivity.
Qed.

Lemma open_validation_order_witness :
  open driver_ok (set_isOpen true (set_path "" (set_baudRate None com3)))
    empty_world =
  (Rejects (ErrString "Path cannot be empty!"),
   set_isOpen true (set_path "" (set_baudRate None com3)), empty_world).
Proof.
  apply (proj1 (open_validation_order driver_ok
                  (set_isOpen true (set_path "" (set_baudRate None com3)))
                  empty_world)).
  reflexivity.
Defined.

(** X4: once [open] has resolved, calling it again resolves with [undefined]
    and does nothing: no second [open] command is sent. *)
Theorem open_twice (env : Env) (s s1 : Serialport) (w w1 : World) (r : Value) :
  open env s w = (Returns r, s1, w1) ->
  open env s1 w1 = (Returns VUndefined, s1, w1).
Proof.
  rewrite !open_run.
  destruct (negb (truthy_string (path (options s)))) eqn:Hp; [discriminate|].
  destruct (negb (truthy_opt truthy_number (baudRate (options s)))) eqn:Hb;
    [discriminate|].
  destruct (isOpen s) eqn:Hopen.
  - intros H; inversion H; subst. rewrite Hp, Hb, Hopen. reflexivity.
  - cbv zeta. destruct (remote env (trace w) _); [|discriminate].
    intros H; inversion H; subst. cbn. rewrite Hp, Hb. reflexivity.
Qed.

Lemma open_twice_witness :
  open driver_ok com3_open
    (log (EvInvoke (cmd_open "COM3" (Some (Num 9600)) DB8 None None SB2 (Num 200))
            (inl VUndefined)) empty_world) =
  (Returns VUndefined, com3_open,
   log (EvInvoke (cmd_open "COM3" (Some (Num 9600)) DB8 None None SB2 (Num 200))
          (inl VUndefined)) empty_world).
Proof.
  apply (open_twice driver_ok com3 com3_open empty_world _ VUndefined).
  reflexivity.
Defined.

(** X5: once [close] has resolved, calling it again resolves with [undefined]
    and does nothing. *)
Theorem close_twice (env : Env) (s s1 : Serialport) (w w1 : World) (r : Value) :
  close env s w = (Returns r, s1, w1) ->
  close env s1 w1 = (Returns VUndefined, s1, w1).
Proof.
  intros Hfirst.
  rewrite close_run, (close_returns_closed env _ _ _ _ _ Hfirst). reflexivity.
Qed.

Lemma close_twice_witness :
  let w1 := snd (close driver_ok com3_listening (world_listening quiet_fn)) in
  close driver_ok com3 w1 = (Returns VUndefined, com3, w1).
Proof.
  cbv zeta.
  apply (close_twice driver_ok com3_listening com3 (world_listening quiet_fn) _
           VUndefined).
  reflexivity.
Defined.

(** X6: on a closed session that holds no subscription, a resolved [open]
    followed by a resolved [close] gives back the very session one started
    from; the driver has seen [open], [cancel_read], [close], in that order,
    and the feed's registrations are untouched. *)
Theorem open_close_round_trip (env : Env) (s s1 s2 : Serialport)
    (w w1 w2 : World) (r1 r2 : Value) :
  isOpen s = false ->
  unListen s = None ->
  open env s w = (Returns r1, s1, w1) ->
  close env s1 w1 = (Returns r2, s2, w2) ->
  s2 = s /\
  listeners w2 = listeners w /\
  commands_of (trace w2) =
    (commands_of (trace w) ++
     [cmd_open (path (options s)) (baudRate (options s)) (dataBits (options s))
        (flowControl (options s)) (parity (options s)) (stopBits (options s))
        (timeout (options s));
      cmd_cancel_read (path (options s));
      cmd_close (path (options s))])%list.
Proof.
  intros Hclosed Hnone. rewrite open_run.
  destruct (negb (truthy_string _)); [discriminate|].
  destruct (negb (truthy_opt _ _)); [discriminate|].
  rewrite Hclosed. cbv zeta.
  destruct (remote env (trace w) _) as [res|e]; [|discriminate].
  intros H; inversion H; subst r1 s1 w1; clear H.
  rewrite close_run. cbn [isOpen set_isOpen options]. cbv zeta.
  destruct (remote env _ (cmd_cancel_read _)) as [v|e]; [|discriminate].
  destruct (remote env _ (cmd_close _)) as [v2|e]; [|discriminate].
  rewrite cancelListen_run. cbn [unListen set_isOpen]. rewrite Hnone.
  intros H; inversion H; subst r2 s2 w2; clear H.
  split; [|split].
  - destruct s; cbn in *; subst; reflexivity.
  - reflexivity.
  - cbn. rewrite !commands_of_app. cbn. rewrite <- !app_assoc. reflexivity.
Qed.

Lemma open_close_round_trip_witness :
  snd (fst (close driver_ok com3_open
              (snd (open driver_ok com3 empty_world)))) = com3.
Proof.
  apply (open_close_round_trip driver_ok com3 com3_open com3 empty_world
           _ _ VUndefined VUndefined eq_refl eq_refl eq_refl eq_refl).
Defined.

(** X7: the defaults the constructor fills in are what the driver is asked
    for.  A session constructed from a non-empty path and a truthy baud rate
    alone opens with 8 data bits, no flow control, no parity, 2 stop bits and a
    timeout of 200, and a [read] without options asks for timeout 200 and
    size 1024. *)
Theorem constructed_defaults_reach_driver (env : Env) (p : string)
    (b : number) (w : World) :
  p <> "" ->
  truthy_number b = true ->
  let s := constructor (minimal_options p b) in
  commands_of (trace (snd (open env s w))) =
    (commands_of (trace w) ++
     [cmd_open p (Some b) DB8 None None SB2 (Num 200)])%list /\
  commands_of (trace (snd (read env None s w))) =
    (commands_of (trace w) ++ [cmd_read p (Num 200) (Num 1024)])%list.
Proof.
  intros Hp Hb s. split.
  - rewrite open_run. subst s. cbn.
    destruct p as [|a p']; [congruence|]. cbn. rewrite Hb. cbn.
    destruct (remote env (trace w) _); cbn; rewrite commands_of_app;
      reflexivity.
  - rewrite read_run. subst s. cbn.
    destruct (remote env (trace w) _); cbn; rewrite commands_of_app;
      reflexivity.
Qed.

Lemma constructed_defaults_reach_driver_witness :
  commands_of (trace (snd (open driver_ok
    (constructor (minimal_options "COM3" (Num 9600))) empty_world))) =
  [cmd_open "COM3" (Some (Num 9600)) DB8 None None SB2 (Num 200)].
Proof.
  apply (constructed_defaults_reach_driver driver_ok "COM3" (Num 9600)
           empty_world); [discriminate | reflexivity].
Defined.

(** ** Writing to an open session *)

(** X8: on an open session [write] sends exactly one command, [write], with
    the text and the session's path; the call resolves with what the driver
    answers (the number of bytes) or is rejected with the driver's error as it
    is, and the session and the feed's registrations are unchanged. *)
Theorem write_open_passes_through (env : Env) (s : Serialport) (w : World)
    (text : string) :
  isOpen s = true ->
  let c := cmd_write text (path (options s)) in
  let out := write env text s w in
  commands_of (trace (snd out)) = (commands_of (trace w) ++ [c])%list /\
  listeners (snd out) = listeners w /\
  (forall v, remote env (trace w) c = inl v -> fst out = (Returns v, s)) /\
  (forall e, remote env (trace w) c = inr e -> fst out = (Rejects e, s)).
Proof.
  intros Hopen c out. subst out c.
  unfold write; unfold_monad; cbn. rewrite Hopen. cbn.
  destruct (remote env (trace w) _) as [v|e]; cbn;
    rewrite commands_of_app; cbn;
    (split; [reflexivity|]); (split; [reflexivity|]);
    split; intros x Hx; inversion Hx; reflexivity.
Qed.

Lemma write_open_passes_through_witness :
  fst (write driver_ok "hi" com3_open empty_world) =
  (Returns (VNumber (Num 2)), com3_open).
Proof.
  destruct (write_open_passes_through driver_ok com3_open empty_world "hi"
              eq_refl) as [_ [_ [Hok _]]].
  exact (Hok (VNumber (Num 2)) eq_refl).
Defined.

(** X9: on an open session [writeBinary] treats a [Uint8Array] and a plain
    array alike: either sends exactly one [write_binary] command with the
    elements as an array and the session's path.  Anything else is rejected
    locally with the type-error message, nothing being sent. *)
Theorem writeBinary_open (env : Env) (s : Serialport) (w : World) :
  isOpen s = true ->
  (forall l,
     writeBinary env (OfUint8Array l) s w = writeBinary env (OfArray l) s w /\
     commands_of (trace (snd (writeBinary env (OfArray l) s w))) =
       (commands_of (trace w) ++ [cmd_write_binary l (path (options s))])%list /\
     snd (fst (writeBinary env (OfArray l) s w)) = s) /\
  writeBinary env NotBinary s w =
    (Rejects (ErrString
       "Argument type error! Expected type: string, Uint8Array, number[]"),
     s, w).
Proof.
  intros Hopen. split.
  - intros l. unfold writeBinary; unfold_monad; cbn. rewrite Hopen. cbn.
    destruct (remote env (trace w) _); cbn; rewrite commands_of_app;
      repeat split.
  - unfold writeBinary; unfold_monad; cbn. rewrite Hopen. reflexivity.
Qed.

Lemma writeBinary_open_witness :
  writeBinary driver_ok NotBinary com3_open empty_world =
  (Rejects (ErrString
     "Argument type error! Expected type: string, Uint8Array, number[]"),
   com3_open, empty_world).
Proof.
  apply (writeBinary_open driver_ok com3_open empty_world). reflexivity.
Defined.

(** ** The static methods *)

(** X10: [forceClose] and [closeAll] do not know of any session: whatever the
    driver answers, a session that was open is still marked open afterwards,
    so a later [write] on it is not refused locally but sent to the driver. *)
Theorem static_close_leaves_sessions_open (env : Env) (s : Serialport)
    (w : World) (p text : string) :
  isOpen s = true ->
  let after_force := forceClose env p s w in
  let after_all := closeAll env s w in
  snd (fst after_force) = s /\
  snd (fst after_all) = s /\
  commands_of (trace (snd after_force)) =
    (commands_of (trace w) ++ [cmd_force_close p])%list /\
  commands_of (trace (snd after_all)) =
    (commands_of (trace w) ++ [cmd_close_all])%list /\
  commands_of (trace (snd (write env text s (snd after_force)))) =
    (commands_of (trace w) ++
     [cmd_force_close p; cmd_write text (path (options s))])%list.
Proof.
  intros Hopen. cbv zeta.
  assert (Hforce : exists ev,
            forceClose env p s w =
              (fst (fst (forceClose env p s w)), s, log ev w) /\
            commands_of [ev] = [cmd_force_close p]).
  { unfold forceClose; unfold_monad.
    destruct (remote env (trace w) _); eexists; split; reflexivity. }
  assert (Hall : exists ev,
            closeAll env s w = (fst (fst (closeAll env s w)), s, log ev w) /\
            commands_of [ev] = [cmd_close_all]).
  { unfold closeAll; unfold_monad.
    destruct (remote env (trace w) _); eexists; split; reflexivity. }
  destruct Hforce as [ev1 [-> H1]]. destruct Hall as [ev2 [-> H2]]. cbn.
  rewrite !commands_of_app, H1, H2.
  repeat (split; [reflexivity|]).
  unfold write; unfold_monad; cbn. rewrite Hopen. cbn.
  destruct (remote env _ (cmd_write _ _)); cbn;
    rewrite !commands_of_app, H1; cbn; rewrite <- app_assoc; reflexivity.
Qed.

Lemma static_close_leaves_sessions_open_witness :
  snd (fst (forceClose driver_ok "COM3" com3_open empty_world)) = com3_open.
Proof.
  apply (static_close_leaves_sessions_open driver_ok com3_open empty_world
           "COM3" "hi").
  reflexivity.
Defined.

(** X11: the static methods hand the driver's answer through and do not
    depend on any session: for any two sessions the outcome and the resulting
    world are the same, and [available_ports] resolves with exactly the list
    the driver gives, or is rejected with exactly its error. *)
Theorem static_methods_pass_through (env : Env) (s s' : Serialport)
    (w : World) (p : string) :
  (fst (fst (available_ports env s w)) = fst (fst (available_ports env s' w)) /\
   snd (available_ports env s w) = snd (available_ports env s' w)) /\
  (fst (fst (forceClose env p s w)) = fst (fst (forceClose env p s' w)) /\
   snd (forceClose env p s w) = snd (forceClose env p s' w)) /\
  (fst (fst (closeAll env s w)) = fst (fst (closeAll env s' w)) /\
   snd (closeAll env s w) = snd (closeAll env s' w)) /\
  fst (fst (available_ports env s w)) =
    match remote env (trace w) cmd_available_ports with
    | inl v => Returns v
    | inr e => Rejects e
    end.
Proof.
  unfold available_ports, forceClose, closeAll; unfold_monad.
  repeat split;
    match goal with
    | |- context [remote env (trace w) ?c] =>
        destruct (remote env (trace w) c); reflexivity
    end.
Qed.

(** ** Reconfiguring, further *)

(** X12: on a closed session [setPath] and [setBaudRate] only assign: they
    resolve without sending anything, whatever the value, an empty path or a
    zero baud rate included (these are refused later, by [open]). *)
Theorem setters_on_closed_only_assign (env : Env) (s : Serialport) (w : World)
    (p : string) (b : number) :
  isOpen s = false ->
  setPath env p s w = (Returns tt, set_path p s, w) /\
  setBaudRate env b s w = (Returns tt, set_baudRate (Some b) s, w) /\
  path (options (set_path p s)) = p /\
  baudRate (options (set_baudRate (Some b) s)) = Some b.
Proof.
  intros Hclosed. rewrite setPath_run, setBaudRate_run. unfold reconfigured.
  rewrite Hclosed. repeat split.
Qed.

Lemma setters_on_closed_only_assign_witness :
  setPath driver_ok "" com3 empty_world = (Returns tt, set_path "" com3, empty_world).
Proof.
  apply (setters_on_closed_only_assign driver_ok com3 empty_world "" (Num 0)).
  reflexivity.
Defined.

(** X13: on a closed session [change] resolves without sending anything and
    assigns only what is truthy: a non-empty path becomes the path, a truthy
    baud rate becomes the baud rate, and an absent, empty or zero value leaves
    the field alone (so [change({baudRate: 0})] changes nothing, where
    [setBaudRate(0)] stores the zero).  No other field is touched. *)
Theorem change_on_closed_assigns_truthy (env : Env) (s : Serialport)
    (w : World) (np : option string) (nb : option number) :
  isOpen s = false ->
  exists s',
    change env np nb s w = (Returns tt, s', w) /\
    (forall p, np = Some p -> p <> "" -> path (options s') = p) /\
    (truthy_opt truthy_string np = false ->
     path (options s') = path (options s)) /\
    (forall b, nb = Some b -> truthy_number b = true ->
     baudRate (options s') = Some b) /\
    (truthy_opt truthy_number nb = false ->
     baudRate (options s') = baudRate (options s)) /\
    (truthy_opt truthy_string np = false ->
     truthy_opt truthy_number nb = false -> s' = s) /\
    isOpen s' = false /\ unListen s' = unListen s /\
    encoding s' = encoding s /\ size s' = size s /\
    dataBits (options s') = dataBits (options s) /\
    flowControl (options s') = flowControl (options s) /\
    parity (options s') = parity (options s) /\
    stopBits (options s') = stopBits (options s) /\
    timeout (options s') = timeout (options s).
Proof.
  intros Hclosed. exists (changed np nb s).
  rewrite change_run. unfold reconfigured. rewrite Hclosed.
  split; [reflexivity|].
  unfold changed, truthy_opt.
  destruct np as [p|]; [destruct p as [|a p']|];
    (destruct nb as [b|]; [destruct (truthy_number b) eqn:Hb|]);
    cbn; repeat split; intros;
    try congruence; try discriminate;
    try match goal with
        | H : Some _ = Some _ |- _ => inversion H; subst; try reflexivity
        end;
    try (destruct s as [io ul enc [pa ba db fc par sb tm] sz]; cbn in *;
         congruence).
Qed.

Lemma change_on_closed_assigns_truthy_witness :
  exists s',
    change driver_ok (Some "") (Some (Num 0)) com3 empty_world =
      (Returns tt, s', empty_world) /\
    s' = com3.
Proof.
  destruct (change_on_closed_assigns_truthy driver_ok com3 empty_world
              (Some "") (Some (Num 0)) eq_refl)
    as [s' [Hrun [_ [_ [_ [_ [Hsame _]]]]]]].
  exists s'. split; [exact Hrun | exact (Hsame eq_refl eq_refl)].
Defined.

(** X14: with a single truthy field, [change] is the corresponding setter:
    [change({baudRate: b})] behaves exactly as [setBaudRate(b)] and
    [change({path: p})] exactly as [setPath(p)], on every session and in every
    world. *)
Theorem change_is_the_setter (env : Env) (s : Serialport) (w : World) :
  (forall b, truthy_number b = true ->
     change env None (Some b) s w = setBaudRate env b s w) /\
  (forall p, p <> "" -> change env (Some p) None s w = setPath env p s w).
Proof.
  split.
  - intros b Hb. rewrite change_run, setBaudRate_run.
    unfold reconfigured, changed. rewrite Hb. reflexivity.
  - intros p Hp. rewrite change_run, setPath_run.
    unfold reconfigured, changed.
    destruct p as [|a p']; [congruence|]. reflexivity.
Qed.

Lemma change_is_the_setter_witness :
  change driver_ok None (Some (Num 115200)) com3_open empty_world =
  setBaudRate driver_ok (Num 115200) com3_open empty_world.
Proof.
  apply (proj1 (change_is_the_setter driver_ok com3_open empty_world)).
  reflexivity.
Defined.

Lemma close_returns_no_subscription (env : Env) (s s1 : Serialport)
    (w w1 : World) (r : Value) :
  isOpen s = true ->
  close env s w = (Returns r, s1, w1) ->
  unListen s1 = None.
Proof.
  intros Hopen. rewrite close_run, Hopen. cbv zeta.
  destruct (remote env (trace w) _); [|discriminate].
  destruct (remote env _ (cmd_close _)); [|discriminate].
  destruct (cancelListen env s _) as [[[u|e|e] s3] w3] eqn:Hcancel;
    try discriminate.
  intros H; inversion H; subst. cbn.
  apply (cancelListen_returns_none env _ _ _ _ _ Hcancel).
Qed.

Lemma open_session_effect (env : Env) (s s1 : Serialport) (w w1 : World)
    (r : Completion Value) :
  open env s w = (r, s1, w1) ->
  unListen s1 = unListen s /\ options s1 = options s /\
  (isOpen s = false -> forall v, r = Returns v -> isOpen s1 = true).
Proof.
  rewrite open_run.
  destruct (negb (truthy_string _));
    [intros H; inversion H; subst; repeat split; discriminate|].
  destruct (negb (truthy_opt _ _));
    [intros H; inversion H; subst; repeat split; discriminate|].
  destruct (isOpen s) eqn:Hopen;
    [intros H; inversion H; subst; repeat split; discriminate|].
  cbv zeta. destruct (remote env (trace w) _);
    intros H; inversion H; subst; repeat split; discriminate.
Qed.

Lemma reconfigured_resolved (env : Env) (f : Serialport -> Serialport)
    (s s' : Serialport) (w w' : World) (u : unit) :
  (forall s0, unListen (f s0) = unListen s0) ->
  (forall s0, isOpen (f s0) = isOpen s0) ->
  isOpen s = true ->
  reconfigured env f s w = (Returns u, s', w') ->
  unListen s' = None /\ isOpen s' = true.
Proof.
  intros Hul Hio Hopen. unfold reconfigured. rewrite Hopen.
  destruct (close env s w) as [[[v|e|e] s1] w1] eqn:Hclose; try discriminate.
  destruct (open env (f s1) w1) as [[[v2|e|e] s2] w2] eqn:Hreopen;
    try discriminate.
  intros H; inversion H; subst s2 w2; clear H.
  destruct (open_session_effect env _ _ _ _ _ Hreopen) as [Hu [_ Hnow]].
  split.
  - rewrite Hu, Hul.
    apply (close_returns_no_subscription env _ _ _ _ _ Hopen Hclose).
  - apply (Hnow (eq_trans (Hio s1)
                   (close_returns_closed env _ _ _ _ _ Hclose)) v2 eq_refl).
Qed.

(** X15: reconfiguring an open session loses its subscription.  When
    [change], [setBaudRate] or [setPath] resolves on a session that was open,
    the session is open again but holds no [UnlistenFn]: the registration was
    released by the inner [close] and is not made again by the inner [open]. *)
Theorem reconfiguring_drops_subscription (env : Env) (s s' : Serialport)
    (w w' : World) :
  isOpen s = true ->
  (forall np nb, change env np nb s w = (Returns tt, s', w') ->
     unListen s' = None /\ isOpen s' = true) /\
  (forall b, setBaudRate env b s w = (Returns tt, s', w') ->
     unListen s' = None /\ isOpen s' = true) /\
  (forall p, setPath env p s w = (Returns tt, s', w') ->
     unListen s' = None /\ isOpen s' = true).
Proof.
  intros Hopen. split; [|split].
  - intros np nb. rewrite change_run.
    apply (reconfigured_resolved env (changed np nb));
      [apply changed_unListen | apply changed_isOpen | exact Hopen].
  - intros b. rewrite setBaudRate_run.
    apply (reconfigured_resolved env (set_baudRate (Some b)));
      [reflexivity | reflexivity | exact Hopen].
  - intros p. rewrite setPath_run.
    apply (reconfigured_resolved env (set_path p));
      [reflexivity | reflexivity | exact Hopen].
Qed.

Lemma reconfiguring_drops_subscription_witness :
  let out := setPath driver_ok "COM4" com3_listening (world_listening quiet_fn) in
  unListen (snd (fst out)) = None /\ isOpen (snd (fst out)) = true.
Proof.
  cbv zeta.
  destruct (reconfiguring_drops_subscription driver_ok com3_listening
              (snd (fst (setPath driver_ok "COM4" com3_listening
                           (world_listening quiet_fn))))
              (world_listening quiet_fn)
              (snd (setPath driver_ok "COM4" com3_listening
                      (world_listening quiet_fn)))
              eq_refl) as [_ [_ Hset]].
  exact (Hset "COM4" eq_refl).
Defined.

(** X16: when the inner [close] of a reconfiguration is rejected, nothing is
    assigned: [change], [setBaudRate] and [setPath] are rejected with the same
    error, and the session is exactly as it was (still open, old path and
    baud rate); no [open] is attempted, the world being the one [close] left. *)
Theorem reconfiguring_stops_at_failed_close (env : Env) (s s1 : Serialport)
    (w w1 : World) (e : Error) :
  isOpen s = true ->
  close env s w = (Rejects e, s1, w1) ->
  (forall np nb, change env np nb s w = (Rejects e, s, w1)) /\
  (forall b, setBaudRate env b s w = (Rejects e, s, w1)) /\
  (forall p, setPath env p s w = (Rejects e, s, w1)).
Proof.
  intros Hopen Hclose.
  pose proof (close_rejects_unchanged env _ _ _ _ _ Hclose) as Hsame.
  subst s1. repeat split; intros;
    rewrite ?change_run, ?setBaudRate_run, ?setPath_run;
    unfold reconfigured; rewrite Hopen, Hclose; reflexivity.
Qed.

Lemma reconfiguring_stops_at_failed_close_witness :
  fst (setPath (driver_failing "plugin:serialport|cancel_read") "COM4"
         com3_open empty_world) =
  (Rejects (ErrObject 1 "Device busy"), com3_open).
Proof.
  destruct (reconfiguring_stops_at_failed_close
              (driver_failing "plugin:serialport|cancel_read")
              com3_open com3_open empty_world _ (ErrObject 1 "Device busy")
              eq_refl eq_refl) as [_ [_ Hset]].
  rewrite (Hset "COM4"). reflexivity.
Defined.

(** X17: when [setPath] resolves on an open session, the device that is
    closed is the old one and the device that is opened is the new one: the
    driver has seen [cancel_read] and [close] for the old path, then [open]
    for the new path with the configuration otherwise unchanged, and the
    session now carries the new path. *)
Theorem setPath_closes_old_opens_new (env : Env) (s s' : Serialport)
    (w w' : World) (p : string) :
  isOpen s = true ->
  setPath env p s w = (Returns tt, s', w') ->
  options s' = with_path p (options s) /\
  commands_of (trace w') =
    (commands_of (trace w) ++
     [cmd_cancel_read (path (options s));
      cmd_close (path (options s));
      cmd_open p (baudRate (options s)) (dataBits (options s))
        (flowControl (options s)) (parity (options s)) (stopBits (options s))
        (timeout (options s))])%list.
Proof.
  intros Hopen. rewrite setPath_run. unfold reconfigured. rewrite Hopen.
  rewrite close_run, Hopen. cbv zeta.
  destruct (remote env (trace w) _) as [v1|e]; [|discriminate].
  destruct (remote env _ (cmd_close _)) as [v2|e]; [|discriminate].
  rewrite cancelListen_run.
  destruct (unListen s) as [h|];
    [destruct (feed_unlisten env _ h) as [e|]; [discriminate|]|];
    rewrite open_run; cbn [set_path set_options set_isOpen set_unListen
                           options path with_path isOpen baudRate];
    (destruct (negb (truthy_string p)); [discriminate|]);
    (destruct (negb (truthy_opt truthy_number (baudRate (options s))));
       [discriminate|]);
    cbv zeta;
    match goal with
    | |- context [remote env ?t ?c] =>
        destruct (remote env t c) as [v3|e]; [|discriminate]
    end;
    intros H; inversion H; subst s' w'; clear H;
    (split; [reflexivity|]);
    cbn; rewrite !commands_of_app; cbn; rewrite <- !app_assoc; reflexivity.
Qed.

Lemma setPath_closes_old_opens_new_witness :
  commands_of (trace (snd (setPath driver_ok "COM4" com3_listening
                             (world_listening quiet_fn)))) =
  [cmd_cancel_read "COM3"; cmd_close "COM3";
   cmd_open "COM4" (Some (Num 9600)) DB8 None None SB2 (Num 200)].
Proof.
  apply (setPath_closes_old_opens_new driver_ok com3_listening _
           (world_listening quiet_fn) _ "COM4" eq_refl eq_refl).
Defined.

(** X18: a setter given a falsy value on an open session closes it for good.
    Once the inner [close] has resolved, [setPath("")] stores the empty path
    and is rejected with "Path cannot be empty!", and [setBaudRate] with 0 or
    NaN stores that value and is rejected with "Baudrate cannot be empty!";
    no [open] command is sent, and the session is left closed. *)
Theorem setter_with_falsy_value_closes (env : Env) (s s1 : Serialport)
    (w w1 : World) (r : Value) :
  isOpen s = true ->
  close env s w = (Returns r, s1, w1) ->
  isOpen s1 = false /\
  setPath env "" s w =
    (Rejects (ErrString "Path cannot be empty!"), set_path "" s1, w1) /\
  (forall b, path (options s) <> "" -> truthy_number b = false ->
     setBaudRate env b s w =
       (Rejects (ErrString "Baudrate cannot be empty!"),
        set_baudRate (Some b) s1, w1)).
Proof.
  intros Hopen Hclose.
  pose proof (close_returns_closed env _ _ _ _ _ Hclose) as Hclosed.
  destruct (close_session env _ _ _ _ _ Hclose) as [Hopts _].
  split; [exact Hclosed|]. split.
  - rewrite setPath_run. unfold reconfigured. rewrite Hopen, Hclose.
    rewrite open_run. reflexivity.
  - intros b Hp Hb. rewrite setBaudRate_run. unfold reconfigured.
    rewrite Hopen, Hclose, open_run.
    cbn [set_baudRate set_options options path with_baudRate baudRate
         truthy_opt].
    rewrite Hopts, Hb.
    destruct (path (options s)); [congruence|]. reflexivity.
Qed.

Lemma setter_with_falsy_value_closes_witness :
  fst (setBaudRate driver_ok (Num 0) com3_open empty_world) =
  (Rejects (ErrString "Baudrate cannot be empty!"),
   set_baudRate (Some (Num 0)) com3).
Proof.
  destruct (setter_with_falsy_value_closes driver_ok com3_open com3
              empty_world _ VUndefined eq_refl eq_refl) as [_ [_ Hbaud]].
  rewrite (Hbaud (Num 0)); [reflexivity | discriminate | reflexivity].
Defined.

(** ** Listening, further *)

(** X19: [listen] does not need the session to be open and sends no command.
    On a session that holds no subscription, when the feed accepts, it
    resolves, the handler is registered under the event name
    "plugin-serialport-read-" followed by the path the session has at that
    moment, and the session holds the new [UnlistenFn]. *)
Theorem listen_registers (env : Env) (s : Serialport) (w : World)
    (fn : Callback) (isDecode : bool) :
  unListen s = None ->
  feed_listen env (trace w) ("plugin-serialport-read-" ++ path (options s))
    = None ->
  exists w',
    listen env fn isDecode s w =
      (Returns tt, set_unListen (Some (next_id w)) s, w') /\
    listeners w' =
      (listeners w ++
       [(next_id w,
         {| l_event := "plugin-serialport-read-" ++ path (options s);
            l_isDecode := isDecode; l_fn := fn |})])%list /\
    commands_of (trace w') = commands_of (trace w).
Proof.
  intros Hnone Hok. rewrite listen_run, cancelListen_run, Hnone.
  cbv zeta. cbn [l_event]. rewrite Hok. eexists. split; [reflexivity|].
  split; [reflexivity|].
  cbn. rewrite commands_of_app. cbn. apply app_nil_r.
Qed.

Lemma listen_registers_witness :
  exists w',
    listen driver_ok quiet_fn true com3 empty_world =
      (Returns tt, set_unListen (Some 0%nat) com3, w') /\
    listeners w' =
      [(0%nat, {| l_event := "plugin-serialport-read-COM3";
                  l_isDecode := true; l_fn := quiet_fn |})] /\
    commands_of (trace w') = [].
Proof.
  apply (listen_registers driver_ok com3 empty_world quiet_fn true);
    reflexivity.
Defined.

(** X20: how [listen] fails on a session that holds a subscription.  If the
    held [UnlistenFn] throws, nothing is registered, the session is unchanged,
    and the rejection reads "Error to listen: Error cancelling listen: ..".  If
    the old registration is released but the feed refuses the new one, the
    rejection reads "Error to listen: .." and the session is left holding no
    subscription at all: the old one is not restored. *)
Theorem listen_failure_modes (env : Env) (s : Serialport) (w : World)
    (fn : Callback) (isDecode : bool) (h : UnlistenFn) (e : Error) :
  unListen s = Some h ->
  (feed_unlisten env (trace w) h = Some e ->
   listen env fn isDecode s w =
     (Rejects (ErrString ("Error to listen: " ++
                          ("Error cancelling listen: " ++ error_to_string e))),
      s, log (EvUnlisten h (Some e)) w)) /\
  (feed_unlisten env (trace w) h = None ->
   feed_listen env (trace w ++ [EvUnlisten h None])%list
     ("plugin-serialport-read-" ++ path (options s)) = Some e ->
   exists w',
     listen env fn isDecode s w =
       (Rejects (ErrString ("Error to listen: " ++ error_to_string e)),
        set_unListen None s, w') /\
     ~ In h (map fst (listeners w'))).
Proof.
  intros Hheld. split.
  - intros Hthrows.
    rewrite listen_run, cancelListen_run, Hheld, Hthrows. reflexivity.
  - intros Hreleased Hrefused.
    rewrite listen_run, cancelListen_run, Hheld, Hreleased.
    cbv zeta. cbn [l_event set_unListen options trace release log].
    rewrite Hrefused. eexists. split; [reflexivity|].
    apply (released_absent h (log (EvUnlisten h None) w)).
Qed.

Lemma listen_failure_modes_witness :
  exists w',
    listen feed_down quiet_fn true com3_listening (world_listening quiet_fn) =
      (Rejects (ErrString "Error to listen: window is gone"),
       set_unListen None com3_listening, w') /\
    ~ In 0%nat (map fst (listeners w')).
Proof.
  apply (listen_failure_modes feed_down com3_listening
           (world_listening quiet_fn) quiet_fn true 0%nat
           (ErrString "window is gone") eq_refl); reflexivity.
Defined.

Example listen_unlisten_throws :
  listen unlisten_broken quiet_fn true com3_listening (world_listening quiet_fn) =
  (Rejects (ErrString
     "Error to listen: Error cancelling listen: TypeError: not a function"),
   com3_listening,
   log (EvUnlisten 0 (Some (ErrException "TypeError" "not a function")))
     (world_listening quiet_fn)).
Proof. reflexivity. Qed.

(** ** The handler, further *)

(** X21: what the callback receives.  With [isDecode] false it is called once
    with the payload's data as bytes, each reduced modulo 256; with [isDecode]
    true and a decoder for the session's encoding, once with the decoded text
    of those bytes.  When the callback returns, nothing is logged.  The
    payload's [size] is never looked at. *)
Theorem handler_delivers (env : Env) (l : Listener) (payload : ReadDataResult)
    (s : Serialport) (w : World) :
  (l_isDecode l = false ->
   l_fn l (ArgBytes (map (fun z => (z mod 256)%Z) (rd_data payload))) = None ->
   handler env l payload s w =
     (Returns tt, s,
      log (EvCallback
             (ArgBytes (map (fun z => (z mod 256)%Z) (rd_data payload))) None)
        w)) /\
  (forall decoder,
     l_isDecode l = true ->
     text_decoder env (encoding s) = inl decoder ->
     let text := decoder (map (fun z => (z mod 256)%Z) (rd_data payload)) in
     l_fn l (ArgText text) = None ->
     handler env l payload s w =
       (Returns tt, s, log (EvCallback (ArgText text) None) w)) /\
  (forall n,
     handler env l {| rd_size := n; rd_data := rd_data payload |} s w =
     handler env l payload s w).
Proof.
  split; [|split].
  - intros Hd Hfn. rewrite handler_run. unfold handler_arg, Uint8Array.
    rewrite Hd, Hfn. reflexivity.
  - intros decoder Hd Hdec text Hfn. rewrite handler_run.
    unfold handler_arg, Uint8Array. rewrite Hd, Hdec. fold text.
    rewrite Hfn. reflexivity.
  - intros n. rewrite !handler_run. unfold handler_arg. reflexivity.
Qed.

Lemma handler_delivers_witness :
  handler driver_ok
    {| l_event := "plugin-serialport-read-COM3"; l_isDecode := false;
       l_fn := quiet_fn |}
    {| rd_size := 2; rd_data := [260; -1]%Z |} com3 empty_world =
  (Returns tt, com3, log (EvCallback (ArgBytes [4; 255]%Z) None) empty_world).
Proof.
  apply (proj1 (handler_delivers driver_ok
                  {| l_event := "plugin-serialport-read-COM3";
                     l_isDecode := false; l_fn := quiet_fn |}
                  {| rd_size := 2; rd_data := [260; -1]%Z |} com3 empty_world));
    reflexivity.
Defined.

(** X22: when the session's encoding is one [TextDecoder] does not know, a
    decoding listener never reaches the callback: on every event the
    constructor's exception is logged with [console.error] and the handler
    returns normally, the session and the registrations being untouched. *)
Theorem handler_unknown_encoding (env : Env) (l : Listener)
    (payload : ReadDataResult) (s : Serialport) (w : World) (e : Error) :
  l_isDecode l = true ->
  text_decoder env (encoding s) = inr e ->
  handler env l payload s w =
    (Returns tt, s,
     {| trace := (trace w ++ [EvConsoleError e])%list;
        listeners := listeners w; next_id := next_id w |}).
Proof.
  intros Hd Hdec.
  rewrite handler_run. unfold handler_arg. rewrite Hd, Hdec. reflexivity.
Qed.

Lemma handler_unknown_encoding_witness :
  let s := constructor
    {| so_path := "COM3"; so_baudRate := Some (Num 9600);
       so_encoding := Some "klingon"; so_dataBits := None;
       so_flowControl := None; so_parity := None; so_stopBits := None;
       so_timeout := None; so_size := None |} in
  handler driver_ok
    {| l_event := "plugin-serialport-read-COM3"; l_isDecode := true;
       l_fn := quiet_fn |} hello s empty_world =
  (Returns tt, s,
   {| trace := [EvConsoleError
                  (ErrException "RangeError"
                     "The encoding label provided is invalid.")];
      listeners := []; next_id := 0 |}).
Proof.
  cbv zeta.
  apply (handler_unknown_encoding driver_ok
           {| l_event := "plugin-serialport-read-COM3"; l_isDecode := true;
              l_fn := quiet_fn |} hello _ empty_world); reflexivity.
Defined.

(** X23: managing the subscription never talks to the driver: [listen],
    [cancelListen] and the handler leave the list of commands sent exactly as
    it was, whatever happens. *)
Theorem subscription_sends_no_command (env : Env) (s : Serialport) (w : World)
    (fn : Callback) (isDecode : bool) (l : Listener)
    (payload : ReadDataResult) :
  commands_of (trace (snd (listen env fn isDecode s w))) =
    commands_of (trace w) /\
  commands_of (trace (snd (cancelListen env s w))) = commands_of (trace w) /\
  commands_of (trace (snd (handler env l payload s w))) =
    commands_of (trace w).
Proof.
  assert (Hcancel : forall s0 w0,
            commands_of (trace (snd (cancelListen env s0 w0))) =
            commands_of (trace w0)).
  { intros s0 w0. rewrite cancelListen_run.
    destruct (unListen s0) as [h|]; [|reflexivity].
    destruct (feed_unlisten env (trace w0) h); cbn;
      rewrite commands_of_app; cbn; apply app_nil_r. }
  split; [|split].
  - rewrite listen_run. specialize (Hcancel s w).
    destruct (cancelListen env s w) as [[[u|e|e] s1] w1]; cbn in Hcancel;
      try exact Hcancel.
    cbv zeta. cbn [l_event].
    destruct (feed_listen env (trace w1) _); cbn;
      rewrite commands_of_app; cbn; rewrite app_nil_r; exact Hcancel.
  - apply Hcancel.
  - rewrite handler_run.
    destruct (handler_arg env s l payload) as [arg|e];
      [destruct (l_fn l arg)|]; cbn;
      rewrite ?commands_of_app; cbn; rewrite ?commands_of_app; cbn;
      rewrite ?app_nil_r; reflexivity.
Qed.

(** ** What no method changes *)

Section Stability.

Variable env : Env.

Lemma cancelListen_fixed (s s1 : Serialport) (w w1 : World)
    (r : Completion unit) :
  cancelListen env s w = (r, s1, w1) ->
  fixed_configuration s1 = fixed_configuration s.
Proof.
  rewrite cancelListen_run.
  destruct (unListen s) as [h|]; [destruct (feed_unlisten env (trace w) h)|];
    intros H; inversion H; subst; reflexivity.
Qed.

Lemma close_fixed (s s1 : Serialport) (w w1 : World) (r : Completion Value) :
  close env s w = (r, s1, w1) ->
  fixed_configuration s1 = fixed_configuration s.
Proof.
  rewrite close_run. destruct (isOpen s);
    [|intros H; inversion H; subst; reflexivity].
  cbv zeta. destruct (remote env (trace w) _);
    [|intros H; inversion H; subst; reflexivity].
  destruct (remote env _ (cmd_close _));
    [|intros H; inversion H; subst; reflexivity].
  destruct (cancelListen env s _) as [[[u|e|e] s3] w3] eqn:Hcancel;
    pose proof (cancelListen_fixed _ _ _ _ _ Hcancel) as Hfixed;
    intros H; inversion H; subst; exact Hfixed.
Qed.

Lemma open_fixed (s s1 : Serialport) (w w1 : World) (r : Completion Value) :
  open env s w = (r, s1, w1) ->
  fixed_configuration s1 = fixed_configuration s.
Proof.
  rewrite open_run.
  destruct (negb (truthy_string _));
    [intros H; inversion H; subst; reflexivity|].
  destruct (negb (truthy_opt _ _));
    [intros H; inversion H; subst; reflexivity|].
  destruct (isOpen s); [intros H; inversion H; subst; reflexivity|].
  cbv zeta. destruct (remote env (trace w) _);
    intros H; inversion H; subst; reflexivity.
Qed.

Lemma listen_session (fn : Callback) (isDecode : bool) (s s1 : Serialport)
    (w w1 : World) (r : Completion unit) :
  listen env fn isDecode s w = (r, s1, w1) ->
  fixed_configuration s1 = fixed_configuration s /\
  options s1 = options s /\ isOpen s1 = isOpen s.
Proof.
  rewrite listen_run.
  destruct (cancelListen env s w) as [[[u|e|e] s2] w2] eqn:Hcancel;
    pose proof (cancelListen_fixed _ _ _ _ _ Hcancel) as Hfixed;
    destruct (cancelListen_session env _ _ _ _ _ Hcancel) as [Hi Ho];
    [cbv zeta; cbn [l_event]; destruct (feed_listen env (trace w2) _)| |];
    intros H; inversion H; subst; cbn; auto.
Qed.

Lemma reconfigured_fixed (f : Serialport -> Serialport) (s s1 : Serialport)
    (w w1 : World) (r : Completion unit) :
  (forall s0, fixed_configuration (f s0) = fixed_configuration s0) ->
  reconfigured env f s w = (r, s1, w1) ->
  fixed_configuration s1 = fixed_configuration s.
Proof.
  intros Hf. unfold reconfigured. destruct (isOpen s).
  - destruct (close env s w) as [[[v|e|e] s2] w2] eqn:Hclose;
      pose proof (close_fixed _ _ _ _ _ Hclose) as Hmid;
      [|intros H; inversion H; subst; exact Hmid ..].
    destruct (open env (f s2) w2) as [[r3 s3] w3] eqn:Hreopen.
    pose proof (open_fixed _ _ _ _ _ Hreopen) as Hend.
    rewrite Hf, Hmid in Hend.
    destruct r3; intros H; inversion H; subst; exact Hend.
  - intros H; inversion H; subst. apply Hf.
Qed.

Lemma changed_fixed (np : option string) (nb : option number)
    (s : Serialport) :
  fixed_configuration (changed np nb s) = fixed_configuration s.
Proof.
  unfold changed.
  destruct np as [p|]; [destruct (truthy_string p)|];
    (destruct nb as [b|]; [destruct (truthy_number b)|]); reflexivity.
Qed.

(** X24: no method changes what the constructor fixed.  Whatever call is made,
    on whatever session, and however the driver and the feed answer, the
    session's encoding, default read size, data bits, flow control, parity,
    stop bits and timeout are afterwards what they were before. *)
Theorem fixed_configuration_is_stable (c : Call) (s : Serialport) (w : World) :
  fixed_configuration (fst (perform env c s w)) = fixed_configuration s.
Proof.
  destruct c; cbn [perform after fst snd].
  - destruct (cancelListen env s w) as [[r s1] w1] eqn:H.
    apply (cancelListen_fixed _ _ _ _ _ H).
  - rewrite (proj1 (cancelRead_frame env s w)). reflexivity.
  - destruct (change env new_path new_baudRate s w) as [[r s1] w1] eqn:H.
    rewrite change_run in H.
    apply (reconfigured_fixed (changed new_path new_baudRate) _ _ _ _ _
             (changed_fixed new_path new_baudRate) H).
  - destruct (close env s w) as [[r s1] w1] eqn:H.
    apply (close_fixed _ _ _ _ _ H).
  - destruct (listen env fn isDecode s w) as [[r s1] w1] eqn:H.
    apply (listen_session _ _ _ _ _ _ _ H).
  - destruct (open env s w) as [[r s1] w1] eqn:H.
    apply (open_fixed _ _ _ _ _ H).
  - rewrite (proj1 (read_frame env opts s w)). reflexivity.
  - destruct (setBaudRate env value s w) as [[r s1] w1] eqn:H.
    rewrite setBaudRate_run in H.
    apply (reconfigured_fixed (set_baudRate (Some value)) _ _ _ _ _
             (fun s0 => eq_refl) H).
  - destruct (setPath env value s w) as [[r s1] w1] eqn:H.
    rewrite setPath_run in H.
    apply (reconfigured_fixed (set_path value) _ _ _ _ _
             (fun s0 => eq_refl) H).
  - rewrite (proj1 (write_frame env value s w)). reflexivity.
  - rewrite (proj1 (writeBinary_frame env value s w)). reflexivity.
  - rewrite (proj1 (emit_frame env event payload s w)). reflexivity.
Qed.

(** X25: the path and the baud rate change only through [change],
    [setBaudRate] and [setPath]: after any other call [this.options] is what it
    was. *)
Theorem options_change_only_by_setters (c : Call) (s : Serialport)
    (w : World) :
  match c with
  | CallChange _ _ | CallSetBaudRate _ | CallSetPath _ => True
  | _ => options (fst (perform env c s w)) = options s
  end.
Proof.
  destruct c; cbn [perform after fst snd]; try exact I.
  - destruct (cancelListen env s w) as [[r s1] w1] eqn:H.
    apply (cancelListen_session env _ _ _ _ _ H).
  - rewrite (proj1 (cancelRead_frame env s w)). reflexivity.
  - destruct (close env s w) as [[r s1] w1] eqn:H.
    apply (close_session env _ _ _ _ _ H).
  - destruct (listen env fn isDecode s w) as [[r s1] w1] eqn:H.
    apply (listen_session _ _ _ _ _ _ _ H).
  - destruct (open env s w) as [[r s1] w1] eqn:H.
    apply (open_session_effect env _ _ _ _ _ H).
  - rewrite (proj1 (read_frame env opts s w)). reflexivity.
  - rewrite (proj1 (write_frame env value s w)). reflexivity.
  - rewrite (proj1 (writeBinary_frame env value s w)). reflexivity.
  - rewrite (proj1 (emit_frame env event payload s w)). reflexivity.
Qed.

End Stability.

(** ** Open only once the driver has accepted *)

Section Acknowledged.

Variable env : Env.

Lemma opened_by_driver_app (t evs : list Event) :
  opened_by_driver t -> opened_by_driver (t ++ evs)%list.
Proof.
  intros [c [v [Hin Hname]]]. exists c, v. split; [|exact Hname].
  apply in_or_app. left. exact Hin.
Qed.

Lemma acknowledged_later (s s1 : Serialport) (w w1 : World) :
  (isOpen s1 = true -> isOpen s = true) ->
  (exists evs, trace w1 = (trace w ++ evs)%list) ->
  acknowledged s w -> acknowledged s1 w1.
Proof.
  intros Hopen [evs Htrace] Hack H1. rewrite Htrace.
  apply opened_by_driver_app. apply Hack. apply Hopen. exact H1.
Qed.

Lemma cancelListen_acknowledged (s s1 : Serialport) (w w1 : World)
    (r : Completion unit) :
  cancelListen env s w = (r, s1, w1) ->
  acknowledged s w -> acknowledged s1 w1.
Proof.
  rewrite cancelListen_run.
  destruct (unListen s) as [h|]; [destruct (feed_unlisten env (trace w) h)|];
    intros H; inversion H; subst; try trivial;
    apply acknowledged_later; auto; extends_trace.
Qed.

Lemma close_acknowledged (s s1 : Serialport) (w w1 : World)
    (r : Completion Value) :
  close env s w = (r, s1, w1) ->
  acknowledged s w -> acknowledged s1 w1.
Proof.
  rewrite close_run. destruct (isOpen s) eqn:Hopen;
    [|intros H; inversion H; subst; trivial].
  cbv zeta. destruct (remote env (trace w) _).
  - destruct (remote env _ (cmd_close _)).
    + destruct (cancelListen env s _) as [[[u|e|e] s3] w3] eqn:Hcancel;
        intros H; inversion H; subst; intros Hack;
        try (intros Hnow; cbn in Hnow; discriminate);
        apply (cancelListen_acknowledged _ _ _ _ _ Hcancel);
        (apply (acknowledged_later s s w); [auto | extends_trace | exact Hack]).
    + intros H; inversion H; subst.
      apply acknowledged_later; [auto | extends_trace].
  - intros H; inversion H; subst.
    apply acknowledged_later; [auto | extends_trace].
Qed.

Lemma open_acknowledged (s s1 : Serialport) (w w1 : World)
    (r : Completion Value) :
  open env s w = (r, s1, w1) ->
  acknowledged s w -> acknowledged s1 w1.
Proof.
  rewrite open_run.
  destruct (negb (truthy_string _));
    [intros H; inversion H; subst; trivial|].
  destruct (negb (truthy_opt _ _));
    [intros H; inversion H; subst; trivial|].
  destruct (isOpen s) eqn:Hopen; [intros H; inversion H; subst; trivial|].
  cbv zeta. destruct (remote env (trace w) _) as [res|e];
    intros H; inversion H; subst; intros Hack Hnow.
  - eexists _, res.
    split; [cbn; apply in_or_app; right; left; reflexivity | reflexivity].
  - congruence.
Qed.

Lemma listen_acknowledged (fn : Callback) (isDecode : bool)
    (s s1 : Serialport) (w w1 : World) (r : Completion unit) :
  listen env fn isDecode s w = (r, s1, w1) ->
  acknowledged s w -> acknowledged s1 w1.
Proof.
  rewrite listen_run.
  destruct (cancelListen env s w) as [[[u|e|e] s2] w2] eqn:Hcancel;
    pose proof (cancelListen_acknowledged _ _ _ _ _ Hcancel) as Hmid;
    [|intros H; inversion H; subst; exact Hmid ..].
  cbv zeta. cbn [l_event].
  destruct (feed_listen env (trace w2) _);
    intros H; inversion H; subst; intros Hack;
    (eapply acknowledged_later; [| |exact (Hmid Hack)];
     [auto | extends_trace]).
Qed.

Lemma reconfigured_acknowledged (f : Serialport -> Serialport)
    (s s1 : Serialport) (w w1 : World) (r : Completion unit) :
  (forall s0, isOpen (f s0) = isOpen s0) ->
  reconfigured env f s w = (r, s1, w1) ->
  acknowledged s w -> acknowledged s1 w1.
Proof.
  intros Hf. unfold reconfigured. destruct (isOpen s) eqn:Hopen.
  - destruct (close env s w) as [[[v|e|e] s2] w2] eqn:Hclose;
      pose proof (close_acknowledged _ _ _ _ _ Hclose) as Hmid;
      [|intros H; inversion H; subst; exact Hmid ..].
    destruct (open env (f s2) w2) as [[r3 s3] w3] eqn:Hreopen.
    pose proof (open_acknowledged _ _ _ _ _ Hreopen) as Hend.
    intros Hres Hack.
    assert (Hfin : acknowledged s3 w3).
    { apply Hend. intros Hnow. rewrite Hf in Hnow. apply (Hmid Hack Hnow). }
    destruct r3; inversion Hres; subst; exact Hfin.
  - intros H; inversion H; subst. intros Hack Hnow.
    rewrite Hf in Hnow. congruence.
Qed.

Lemma frame_acknowledged (s s1 : Serialport) (w w1 : World) :
  s1 = s ->
  (exists evs, trace w1 = (trace w ++ evs)%list) ->
  acknowledged s w -> acknowledged s1 w1.
Proof.
  intros -> Htrace. apply acknowledged_later; auto.
Qed.

Lemma perform_acknowledged (c : Call) (s : Serialport) (w : World) :
  acknowledged s w ->
  acknowledged (fst (perform env c s w)) (snd (perform env c s w)).
Proof.
  destruct c; cbn [perform after fst snd].
  - destruct (cancelListen env s w) as [[r s1] w1] eqn:H.
    apply (cancelListen_acknowledged _ _ _ _ _ H).
  - apply frame_acknowledged; [apply cancelRead_frame|].
    rewrite cancelRead_run. cbv zeta.
    destruct (remote env (trace w) _); eexists; reflexivity.
  - destruct (change env new_path new_baudRate s w) as [[r s1] w1] eqn:H.
    rewrite change_run in H.
    apply (reconfigured_acknowledged (changed new_path new_baudRate) _ _ _ _ _
             (changed_isOpen new_path new_baudRate) H).
  - destruct (close env s w) as [[r s1] w1] eqn:H.
    apply (close_acknowledged _ _ _ _ _ H).
  - destruct (listen env fn isDecode s w) as [[r s1] w1] eqn:H.
    apply (listen_acknowledged _ _ _ _ _ _ _ H).
  - destruct (open env s w) as [[r s1] w1] eqn:H.
    apply (open_acknowledged _ _ _ _ _ H).
  - apply frame_acknowledged; [apply read_frame|].
    rewrite read_run. cbv zeta.
    destruct (remote env (trace w) _); eexists; reflexivity.
  - destruct (setBaudRate env value s w) as [[r s1] w1] eqn:H.
    rewrite setBaudRate_run in H.
    apply (reconfigured_acknowledged (set_baudRate (Some value)) _ _ _ _ _
             (fun s0 => eq_refl) H).
  - destruct (setPath env value s w) as [[r s1] w1] eqn:H.
    rewrite setPath_run in H.
    apply (reconfigured_acknowledged (set_path value) _ _ _ _ _
             (fun s0 => eq_refl) H).
  - apply frame_acknowledged; [apply write_frame|].
    unfold write; unfold_monad; cbn.
    destruct (isOpen s); cbn; [|exists []; symmetry; apply app_nil_r].
    destruct (remote env (trace w) _); eexists; reflexivity.
  - apply frame_acknowledged; [apply writeBinary_frame|].
    unfold writeBinary; unfold_monad; cbn.
    destruct (isOpen s); cbn; [|exists []; symmetry; apply app_nil_r].
    destruct value; cbn; try (exists []; symmetry; apply app_nil_r);
      destruct (remote env (trace w) _); eexists; reflexivity.
  - apply frame_acknowledged; [apply emit_frame|].
    unfold emit.
    destruct (dispatch_frame env (listeners w) event payload s w) as [evs ->].
    exists evs. reflexivity.
Qed.

(** X26: a session is never marked open on its own authority.  For every
    session a client can have reached, if [isOpen] is true then the history
    contains an [open] command that the driver accepted. *)
Theorem open_only_once_accepted (s : Serialport) (w : World) :
  Reachable env s w ->
  isOpen s = true ->
  opened_by_driver (trace w).
Proof.
  induction 1 as [o | c s w Hreach IH].
  - intros H. discriminate.
  - apply perform_acknowledged. exact IH.
Qed.

End Acknowledged.

Lemma open_only_once_accepted_witness :
  opened_by_driver (trace (snd (perform driver_ok CallOpen com3 empty_world))).
Proof.
  apply (open_only_once_accepted driver_ok
           (fst (perform driver_ok CallOpen com3 empty_world))
           (snd (perform driver_ok CallOpen com3 empty_world))).
  - apply (Reachable_call driver_ok CallOpen).
    exact (Reachable_new driver_ok com3_options).
  - reflexivity.
Defined.

(** ** Cancelling a read *)

(** X27: [cancelRead] is not gated by [isOpen] and needs no read to be
    outstanding: on any session, open or closed, it sends exactly one
    [cancel_read] command for the session's path, resolves or is rejected as
    the driver answers, and leaves the session and the feed's registrations as
    they were. *)
Theorem cancelRead_is_not_gated (env : Env) (s : Serialport) (w : World) :
  let c := cmd_cancel_read (path (options s)) in
  let out := cancelRead env s w in
  commands_of (trace (snd out)) = (commands_of (trace w) ++ [c])%list /\
  listeners (snd out) = listeners w /\
  fst out =
    (match remote env (trace w) c with
     | inl v => Returns v
     | inr e => Rejects e
     end, s).
Proof.
  cbv zeta. rewrite cancelRead_run. cbv zeta.
  destruct (remote env (trace w) _); cbn; rewrite commands_of_app;
    repeat split.
Qed.
